(** * The client-side router of [packages/kit/src/runtime/client/router.js]
      and the configuration options of
      [packages/kit/src/core/load_config/options.js]

    A shallow embedding of the [Router] class together with the part of the
    browser it talks to (location, session history, events, the renderer
    collaborator), and the properties of its navigation logic; then the
    table of configuration options with its validators, one of which
    decides the trailing-slash policy the router is built with.

    Conventions.
    - A JavaScript string is held as a Rocq [string] carrying its UTF-8
      encoding.  The router slices strings in three places only:
      [url.pathname.slice(this.base.length)] after [startsWith] succeeded on
      a pathname (always ASCII in a URL), [info.path.slice(0, -1)] on a path
      that ends in ['/'], and [hash.slice(1)] on a string that starts with
      ['#'].  In all three the removed units are ASCII, so counting bytes
      and counting UTF-16 units agree.  The validators of the options look
      at the first unit of a string only to compare it with an ASCII
      character, and match strings against a pattern of ASCII characters.
    - Pixel offsets are integers.
    - A function that may throw returns a [completion]; an [async] function
      never throws: it returns a promise, modelled by an inductive type that
      lists the ways the promise can end up. *)

From Stdlib Require Import String Ascii List Bool ZArith NArith Lia.
Import ListNotations.
Local Open Scope string_scope.
Local Open Scope bool_scope.

(** ** JavaScript string methods used by the router *)

Module JSString.

(** [s.startsWith(p)] *)
Definition startsWith (s p : string) : bool := String.prefix p s.

(** [s.endsWith(t)]: [t] is [s] itself or a suffix of the tail of [s]. *)
Fixpoint endsWith (s t : string) : bool :=
  (s =? t) ||
  match s with
  | EmptyString => false
  | String _ r => endsWith r t
  end.

(** [s.includes(t)]: [t] starts at some position of [s]. *)
Fixpoint includes (s t : string) : bool :=
  String.prefix t s ||
  match s with
  | EmptyString => false
  | String _ r => includes r t
  end.

(** [s.slice(start, end)] with the index clamping of ECMA-262
    (negative indices count from the end); [None] stands for an omitted
    [end]. *)
Definition clamp (len i : Z) : Z :=
  if (i <? 0)%Z then Z.max (len + i) 0 else Z.min i len.

Definition slice (s : string) (start : Z) (stop : option Z) : string :=
  let len := Z.of_nat (String.length s) in
  let from := clamp len start in
  let to := match stop with None => len | Some e => clamp len e end in
  String.substring (Z.to_nat from) (Z.to_nat (Z.max (to - from) 0)) s.

(** [s.split(sep)] for a one-character separator; the result is never
    empty. *)
Fixpoint split (s : string) (sep : ascii) : list string :=
  match s with
  | EmptyString => [EmptyString]
  | String c r =>
      if Ascii.eqb c sep then EmptyString :: split r sep
      else match split r sep with
           | h :: t => String c h :: t
           | [] => [String c EmptyString]
           end
  end.

(** [a.pop()] read as a value: the last element ([undefined] on an empty
    array never arises after [split]). *)
Definition pop (l : list string) : string := List.last l EmptyString.

(** ASCII [toUpperCase]. *)
Definition upper_ascii (c : ascii) : ascii :=
  let n := nat_of_ascii c in
  if (97 <=? n)%nat && (n <=? 122)%nat then ascii_of_nat (n - 32) else c.

Fixpoint toUpperCase (s : string) : string :=
  match s with
  | EmptyString => EmptyString
  | String c r => String (upper_ascii c) (toUpperCase r)
  end.

(** [x || d] on strings: the empty string is falsy. *)
Definition or_default (s d : string) : string :=
  match s with EmptyString => d | _ => s end.

(** Truthiness of a string. *)
Definition truthy (s : string) : bool :=
  match s with EmptyString => false | _ => true end.

End JSString.
Import JSString.

(** ** [decodeURIComponent] (ECMA-262, Decode with an empty reserved set)

    [None] stands for the [URIError] the builtin throws.  The loop of the
    standard is run as a state machine over the input: [need] continuation
    escapes are still expected for the multi-byte sequence whose octets so
    far are [pending]. *)

Module URI.

Definition hex_val (c : ascii) : option N :=
  let n := N_of_ascii c in
  if (48 <=? n)%N && (n <=? 57)%N then Some (n - 48)%N
  else if (65 <=? n)%N && (n <=? 70)%N then Some (n - 55)%N
  else if (97 <=? n)%N && (n <=? 102)%N then Some (n - 87)%N
  else None.

Definition hex_byte (h l : ascii) : option N :=
  match hex_val h, hex_val l with
  | Some a, Some b => Some (16 * a + b)%N
  | _, _ => None
  end.

(** Number of leading 1 bits of an octet, capped at 5. *)
Definition leading_ones (B : N) : nat :=
  if (B <? 128)%N then 0
  else if (B <? 192)%N then 1
  else if (B <? 224)%N then 2
  else if (B <? 240)%N then 3
  else if (B <? 248)%N then 4
  else 5.

Definition in_range (lo hi b : N) : bool := (lo <=? b)%N && (b <=? hi)%N.

Definition cont (b : N) : bool := in_range 128 191 b.

(** Well-formed UTF-8 byte sequences of one code point (Unicode,
    table 3-7): no overlong forms, no surrogates, nothing above
    U+10FFFF. *)
Definition valid_utf8 (octets : list N) : bool :=
  match octets with
  | [a] => (a <? 128)%N
  | [a; b] => in_range 194 223 a && cont b
  | [a; b; c] =>
      ((a =? 224)%N && in_range 160 191 b && cont c)
      || (in_range 225 236 a && cont b && cont c)
      || ((a =? 237)%N && in_range 128 159 b && cont c)
      || (in_range 238 239 a && cont b && cont c)
  | [a; b; c; d] =>
      ((a =? 240)%N && in_range 144 191 b && cont c && cont d)
      || (in_range 241 243 a && cont b && cont c && cont d)
      || ((a =? 244)%N && in_range 128 143 b && cont c && cont d)
  | _ => false
  end.

Definition string_of_octets (octets : list N) : string :=
  string_of_list_ascii (map ascii_of_N octets).

Definition percent : ascii := "%"%char.

Fixpoint Decode (pending : list N) (need : nat) (s : string)
  : option string :=
  match s with
  | EmptyString =>
      match need with O => Some EmptyString | S _ => None end
  | String c r =>
      if Ascii.eqb c percent then
        match r with
        | String h (String l r') =>
            match hex_byte h l with
            | None => None
            | Some B =>
                match need with
                | O =>
                    match leading_ones B with
                    | 0 => option_map (String (ascii_of_N B))
                             (Decode [] 0 r')
                    | 2 => Decode [B] 1 r'
                    | 3 => Decode [B] 2 r'
                    | 4 => Decode [B] 3 r'
                    | _ => None
                    end
                | S k =>
                    let octets := (pending ++ [B])%list in
                    match k with
                    | O =>
                        if valid_utf8 octets
                        then option_map (append (string_of_octets octets))
                               (Decode [] 0 r')
                        else None
                    | S _ => Decode octets k r'
                    end
                end
            end
        | _ => None
        end
      else
        match need with
        | O => option_map (String c) (Decode [] 0 r)
        | S _ => None
        end
  end.

Definition decodeURIComponent (s : string) : option string :=
  Decode [] 0 s.

End URI.
Import URI.

(** ** Data model *)

(** The properties of a [URL] object (and of [location]) that the router
    reads. *)
Record URL := {
  href : string;
  origin : string;
  pathname : string;
  search : string;
  hash : string
}.

(** What the browser provides and the router only calls: the URL parser
    ([new URL(url, base)], [None] for the [TypeError] it throws on an
    invalid URL) and, for a type [URLSearchParams] of query objects, the
    constructor and the string conversion. *)
Class Platform (URLSearchParams : Type) := {
  new_URLSearchParams : string -> URLSearchParams;
  URLSearchParams_toString : URLSearchParams -> string;
  new_URL : string -> option string -> option URL
}.

(** A pattern is used through [pattern.test(path)] only; the patterns of
    the generated route table carry no [g] or [y] flag, so [test] is a
    function of its argument. *)
Definition RegExp := string -> bool.

(** [CSRRoute]: a pattern followed by a reference to what loads the
    route. *)
Record CSRRoute := {
  pattern : RegExp;
  loader : nat
}.

(** [kit.trailingSlash], validated by [expect_enum(['never', 'always',
    'ignore'])] in [core/load_config/options.js]. *)
Inductive TrailingSlash := never | always | ignore.

Definition TrailingSlash_eqb (a b : TrailingSlash) : bool :=
  match a, b with
  | never, never | always, always | ignore, ignore => true
  | _, _ => false
  end.

Record ScrollPosition := { scroll_x : Z; scroll_y : Z }.

Inductive JSError :=
| URIError
| TypeError
| SecurityError
| Error (message : string).

Inductive completion (A : Type) :=
| Normal (a : A)
| Throw (e : JSError).
Arguments Normal {A} a.
Arguments Throw {A} e.

(** The fields of the [Router] object.  [enabled] is undefined, hence
    falsy, until [init] sets it; [renderer] is bound by [init] and its
    methods appear below as effects. *)
Record Router := {
  base : string;
  routes : list CSRRoute;
  trailing_slash : TrailingSlash;
  enabled : bool
}.

(** [new Router({ base, routes, trailing_slash })] *)
Definition constructor (base : string) (routes : list CSRRoute)
  (trailing_slash : TrailingSlash) : Router :=
  {| base := base; routes := routes; trailing_slash := trailing_slash;
     enabled := false |}.

Definition set_enabled (r : Router) (v : bool) : Router :=
  {| base := base r; routes := routes r;
     trailing_slash := trailing_slash r; enabled := v |}.

(** [enable()] and [disable()] *)
Definition enable (r : Router) : Router := set_enabled r true.
Definition disable (r : Router) : Router := set_enabled r false.

Section Resolver.

Context {URLSearchParams : Type} {P : Platform URLSearchParams}.

Record NavigationInfo := {
  info_id : string;
  info_routes : list CSRRoute;
  info_path : string;
  info_query : URLSearchParams
}.

(** [info.path = v] *)
Definition set_path (info : NavigationInfo) (v : string) : NavigationInfo :=
  {| info_id := info_id info; info_routes := info_routes info;
     info_path := v; info_query := info_query info |}.

(** [owns(url)]; [location] is the global of that name. *)
Definition owns (r : Router) (location : URL) (url : URL) : bool :=
  (origin url =? origin location) && startsWith (pathname url) (base r).

(** The argument of [decodeURIComponent] in [parse]. *)
Definition stripped_pathname (r : Router) (url : URL) : string :=
  or_default
    (slice (pathname url) (Z.of_nat (String.length (base r))) None) "/".

(** [parse(url)]: [Normal None] is the [undefined] that falls out of the
    function when the URL is not owned. *)
Definition parse (r : Router) (location : URL) (url : URL)
  : completion (option NavigationInfo) :=
  if owns r location url then
    match decodeURIComponent (stripped_pathname r url) with
    | None => Throw URIError
    | Some path =>
        let routes := filter (fun route => pattern route path) (routes r) in
        let query := new_URLSearchParams (search url) in
        let id := path ++ "?" ++ URLSearchParams_toString query in
        Normal (Some {| info_id := id; info_routes := routes;
                        info_path := path; info_query := query |})
    end
  else Normal None.

(** *** The trailing-slash step of [_navigate] *)

(** [has_trailing_slash] *)
Definition has_trailing_slash (path : string) : bool := endsWith path "/".

(** [incorrect] *)
Definition incorrect (ts : TrailingSlash) (path : string) : bool :=
  (has_trailing_slash path && TrailingSlash_eqb ts never)
  || (negb (has_trailing_slash path)
      && TrailingSlash_eqb ts always
      && negb (includes (pop (split path "/"%char)) ".")).

(** The right-hand side of [info.path = ...] *)
Definition rewritten (path : string) : string :=
  if has_trailing_slash path then slice path 0 (Some (-1)%Z)
  else path ++ "/".

(** The path [_navigate] goes on with: the whole [if (info.path !== '/')]
    block seen as a function of the path. *)
Definition normalize_trailing_slash (ts : TrailingSlash) (path : string)
  : string :=
  if negb (path =? "/") then
    if incorrect ts path then rewritten path else path
  else path.

End Resolver.

(** ** The document: nodes and events *)

(** The value of [a.href] or [a.target]: a string on an HTML element, an
    [SVGAnimatedString] object on an SVG one, [undefined] on a node that
    has no such property. *)
Inductive IDLValue :=
| Undefined
| Str (s : string)
| SVGAnimatedString (baseVal : string).

Module DOM.

#[local] Set Warnings "-register-all".
Inductive Node := mkNode {
  nodeName : string;
  href : IDLValue;
  target : IDLValue;
  attributes : list (string * string);
  parentNode : option Node
}.

End DOM.
Abbreviation Node := DOM.Node.

(** [find_anchor(node)]: the nearest node, starting with [node] itself,
    whose name is [A] in any letter case. *)
Fixpoint find_anchor_from (node : Node) : option Node :=
  match node with
  | DOM.mkNode name _ _ _ parent =>
      if negb (toUpperCase name =? "A") then
        match parent with
        | Some p => find_anchor_from p
        | None => None
        end
      else Some node
  end.

Definition find_anchor (node : option Node) : option Node :=
  match node with
  | Some n => find_anchor_from n
  | None => None
  end.

(** [a.hasAttribute(name)] and [a.getAttribute(name)] *)
Definition hasAttribute (a : Node) (name : string) : bool :=
  existsb (fun kv => fst kv =? name) (DOM.attributes a).

Definition getAttribute (a : Node) (name : string) : option string :=
  option_map snd (find (fun kv => fst kv =? name) (DOM.attributes a)).

(** Truthiness of an [IDLValue]: objects are truthy. *)
Definition IDL_truthy (v : IDLValue) : bool :=
  match v with
  | Undefined => false
  | Str s => truthy s
  | SVGAnimatedString _ => true
  end.

(** [String(v)] *)
Definition IDL_String (v : IDLValue) : string :=
  match v with
  | Undefined => "undefined"
  | Str s => s
  | SVGAnimatedString _ => "[object SVGAnimatedString]"
  end.

(** [typeof v === 'object' && v.constructor.name === 'SVGAnimatedString'] *)
Definition is_SVGAnimatedString (v : IDLValue) : bool :=
  match v with
  | SVGAnimatedString _ => true
  | _ => false
  end.

(** [v.baseVal]: a [TypeError] on [undefined], [undefined] on a string. *)
Definition baseVal_of (v : IDLValue) : completion IDLValue :=
  match v with
  | Undefined => Throw TypeError
  | Str _ => Normal Undefined
  | SVGAnimatedString s => Normal (Str s)
  end.

(** *** [rel.split(/\s+/)]

    [ws_width s] is the number of bytes of the white space character (in
    the sense of [\s]) that [s] starts with, 0 if there is none. *)
Definition of_bytes (l : list nat) : string :=
  string_of_list_ascii (map ascii_of_nat l).

Definition ws_width (s : string) : nat :=
  match s with
  | String c r =>
      let n := nat_of_ascii c in
      if ((9 <=? n) && (n <=? 13) || (n =? 32))%nat then 1
      else if String.prefix (of_bytes [194; 160]) s then 2      (* U+00A0 *)
      else if String.prefix (of_bytes [225; 154; 128]) s then 3 (* U+1680 *)
      else if String.prefix (of_bytes [226; 128]) s then
        (* U+2000 to U+200A, U+2028, U+2029, U+202F *)
        match r with
        | String _ (String d _) =>
            let m := nat_of_ascii d in
            if ((128 <=? m) && (m <=? 138) || (m =? 168) || (m =? 169)
                || (m =? 175))%nat then 3 else 0
        | _ => 0
        end
      else if String.prefix (of_bytes [226; 129; 159]) s then 3 (* U+205F *)
      else if String.prefix (of_bytes [227; 128; 128]) s then 3 (* U+3000 *)
      else if String.prefix (of_bytes [239; 187; 191]) s then 3 (* U+FEFF *)
      else 0
  | EmptyString => 0
  end.

(** What follows a separator: a run of white space is one separator, so
    the empty piece between two white space characters is dropped. *)
Definition after_separator (rest : string) (pieces : list string)
  : list string :=
  EmptyString :: (if (0 <? ws_width rest)%nat then tl pieces else pieces).

Fixpoint split_whitespace (s : string) : list string :=
  match s with
  | EmptyString => [EmptyString]
  | String c r =>
      match ws_width s with
      | 0 =>
          match split_whitespace r with
          | h :: t => String c h :: t
          | [] => [String c EmptyString]
          end
      | 1 => after_separator r (split_whitespace r)
      | 2 =>
          match r with
          | String _ r2 => after_separator r2 (split_whitespace r2)
          | EmptyString => [EmptyString]
          end
      | _ =>
          match r with
          | String _ (String _ r3) => after_separator r3 (split_whitespace r3)
          | _ => [EmptyString]
          end
      end
  end.

(** [rel.includes('external')] on an array of strings *)
Definition array_includes (l : list string) (v : string) : bool :=
  existsb (fun t => t =? v) l.

(** [MouseEvent] (and the [TouchEvent] of [touchstart], of which only
    [target] is read). *)
Record MouseEvent := {
  button : Z;
  which : Z;
  metaKey : bool;
  ctrlKey : bool;
  shiftKey : bool;
  altKey : bool;
  defaultPrevented : bool;
  event_target : option Node
}.

(** ** The browser *)

(** A history state object as the router writes it: a plain object whose
    only key of interest is ['sveltekit:scroll']. *)
Record HistoryState := { sveltekit_scroll : option ScrollPosition }.

(** The literal [{}] *)
Definition empty_state : HistoryState := {| sveltekit_scroll := None |}.

(** A session history entry; its state is [null] until one is stored. *)
Record Entry := {
  entry_state : option HistoryState;
  entry_url : URL
}.

Inductive ScrollRestoration := auto | manual.

Inductive EventType :=
| beforeunload | load | scroll | touchstart | mousemove | click | popstate.

Section Browser.

Context {URLSearchParams : Type}.

(** Calls on the collaborators, in program order. *)
Inductive Effect :=
| E_pushState (state : HistoryState) (url : string)
| E_replaceState (state : HistoryState) (url : string)
| E_location_href (url : string)
| E_preventDefault
| E_notify (path : string) (query : URLSearchParams)
| E_update (info : @NavigationInfo URLSearchParams) (chain : list string)
    (no_scroll : bool)
| E_load (info : @NavigationInfo URLSearchParams)
| E_focus
| E_scrollTo (x y : Z).

Record Browser := {
  history_back : list Entry;
  history_entry : Entry;
  history_forward : list Entry;
  scrollRestoration : option ScrollRestoration;
  base_href : option string;
  pageXOffset : Z;
  pageYOffset : Z;
  element_tops : list (string * Z);
  body_tabindex : option string;
  listeners : list EventType;
  scroll_timer : bool;
  mousemove_timeout : option MouseEvent;
  trace : list Effect
}.

(** [location] is the URL of the current entry. *)
Definition location (b : Browser) : URL := entry_url (history_entry b).

(** [document.baseURI]: the [href] of the [base] element if the document
    has one, the URL of the document otherwise. *)
Definition baseURI (b : Browser) : string :=
  match base_href b with
  | Some h => h
  | None => href (location b)
  end.

(** [history.state] *)
Definition history_state (b : Browser) : option HistoryState :=
  entry_state (history_entry b).

(** [history.length] *)
Definition history_length (b : Browser) : nat :=
  List.length (history_back b) + 1 + List.length (history_forward b).

Definition with_history (b : Browser) (back : list Entry) (cur : Entry)
  (fwd : list Entry) : Browser :=
  {| history_back := back; history_entry := cur; history_forward := fwd;
     scrollRestoration := scrollRestoration b; base_href := base_href b;
     pageXOffset := pageXOffset b; pageYOffset := pageYOffset b;
     element_tops := element_tops b; body_tabindex := body_tabindex b;
     listeners := listeners b; scroll_timer := scroll_timer b;
     mousemove_timeout := mousemove_timeout b; trace := trace b |}.

Definition with_trace (b : Browser) (t : list Effect) : Browser :=
  {| history_back := history_back b; history_entry := history_entry b;
     history_forward := history_forward b;
     scrollRestoration := scrollRestoration b; base_href := base_href b;
     pageXOffset := pageXOffset b; pageYOffset := pageYOffset b;
     element_tops := element_tops b; body_tabindex := body_tabindex b;
     listeners := listeners b; scroll_timer := scroll_timer b;
     mousemove_timeout := mousemove_timeout b; trace := t |}.

Definition with_page (b : Browser) (sr : option ScrollRestoration)
  (tabindex : option string) (ls : list EventType) : Browser :=
  {| history_back := history_back b; history_entry := history_entry b;
     history_forward := history_forward b;
     scrollRestoration := sr; base_href := base_href b;
     pageXOffset := pageXOffset b; pageYOffset := pageYOffset b;
     element_tops := element_tops b; body_tabindex := tabindex;
     listeners := ls; scroll_timer := scroll_timer b;
     mousemove_timeout := mousemove_timeout b; trace := trace b |}.

Definition with_timers (b : Browser) (st : bool) (mt : option MouseEvent)
  : Browser :=
  {| history_back := history_back b; history_entry := history_entry b;
     history_forward := history_forward b;
     scrollRestoration := scrollRestoration b; base_href := base_href b;
     pageXOffset := pageXOffset b; pageYOffset := pageYOffset b;
     element_tops := element_tops b; body_tabindex := body_tabindex b;
     listeners := listeners b; scroll_timer := st;
     mousemove_timeout := mt; trace := trace b |}.

(** *** Computations on the browser: state that survives a throw *)

Definition M (A : Type) : Type := Browser -> completion A * Browser.

Definition ret {A} (a : A) : M A := fun b => (Normal a, b).

Definition throw {A} (e : JSError) : M A := fun b => (Throw e, b).

Definition bind {A B} (m : M A) (k : A -> M B) : M B :=
  fun b =>
    match m b with
    | (Normal a, b') => k a b'
    | (Throw e, b') => (Throw e, b')
    end.

Definition get : M Browser := fun b => (Normal b, b).

(** The browser after the calls [es] were made. *)
Definition emitted (b : Browser) (es : list Effect) : Browser :=
  with_trace b (trace b ++ es).

Definition emit (e : Effect) : M unit :=
  fun b => (Normal tt, emitted b [e]).

Definition lift {A} (c : completion A) : M A := fun b => (c, b).

End Browser.

Declare Scope js_scope.
Delimit Scope js_scope with js.
Notation "x <- m ;; k" := (bind m (fun x => k))
  (at level 61, m at next level, right associativity) : js_scope.
Notation "m ;; k" := (bind m (fun _ => k))
  (at level 61, right associativity) : js_scope.

Local Open Scope js_scope.

Section Promises.

Context {URLSearchParams : Type}.

(** What a pending promise waits for: [_navigate] is suspended at
    [await this.renderer.update(info, chain, false)] and resumed by
    [_navigate_resume scroll hash]; [prefetch] follows the promise
    returned by [this.renderer.load(info)]. *)
Inductive Awaited :=
| update_of_renderer (scroll : option ScrollPosition) (hash : option string)
| load_of_renderer (info : @NavigationInfo URLSearchParams).

Inductive Promise :=
| Rejected (e : JSError)
| Awaits (w : Awaited)
| NeverSettles.

End Promises.

(** The two errors the router throws itself. *)
Definition not_owned_navigate : JSError :=
  Error "Attempted to navigate to a URL that does not belong to this app".

Definition not_owned_prefetch : JSError :=
  Error "Attempted to prefetch a URL that does not belong to this app".

(** The options of [goto], with their defaults. *)
Record GotoOptions := { noscroll : bool; replaceState : bool }.

Definition default_options : GotoOptions :=
  {| noscroll := false; replaceState := false |}.

Definition EventType_eqb (a b : EventType) : bool :=
  match a, b with
  | beforeunload, beforeunload | load, load | scroll, scroll
  | touchstart, touchstart | mousemove, mousemove | click, click
  | popstate, popstate => true
  | _, _ => false
  end.

Section RouterMethods.

Context {URLSearchParams : Type} {P : Platform URLSearchParams}.

Local Abbreviation NavigationInfo := (@NavigationInfo URLSearchParams).
Local Abbreviation Effect := (@Effect URLSearchParams).
Local Abbreviation Browser := (@Browser URLSearchParams).
Local Abbreviation Promise := (@Promise URLSearchParams).
Local Abbreviation M := (@M URLSearchParams).

(** An [async] function runs its body up to the first [await] and hands
    back a promise; a throw in the body rejects the promise. *)
Definition async (body : M Promise) : Browser -> Promise * Browser :=
  fun b =>
    match body b with
    | (Normal p, b') => (p, b')
    | (Throw e, b') => (Rejected e, b')
    end.

(** Calling an [async] function from a computation. *)
Definition call (f : Browser -> Promise * Browser) : M Promise :=
  fun b => let (p, b') := f b in (Normal p, b').

(** [scroll_state()] *)
Definition scroll_state (b : Browser) : ScrollPosition :=
  {| scroll_x := pageXOffset b; scroll_y := pageYOffset b |}.

(** [get_base_uri(document)] of [./utils], which is not among the
    sources: taken to be the base URI of the document, against which
    the history API resolves its URLs too. *)
Definition get_base_uri (b : Browser) : string := baseURI b.

(** The session history after a write: [pushState] adds an entry after the
    current one and drops the entries ahead, [replaceState] overwrites the
    current entry. *)
Definition store_entry (push : bool) (state : HistoryState) (u : URL)
  (b : Browser) : Browser :=
  let e := {| entry_state := Some state; entry_url := u |} in
  if push
  then with_history b (history_entry b :: history_back b) e []
  else with_history b (history_back b) e (history_forward b).

(** [history.pushState(state, title, url)] and
    [history.replaceState(state, title, url)]: the URL is resolved against
    the document and must stay in the origin of the document, otherwise a
    [SecurityError] is thrown and nothing changes. *)
Definition history_write (push : bool) (state : HistoryState)
  (url : string) : M unit :=
  fun b =>
    match new_URL url (Some (baseURI b)) with
    | None => (Throw SecurityError, b)
    | Some u =>
        if origin u =? origin (location b) then
          emit (if push then E_pushState state url
                else E_replaceState state url)
            (store_entry push state u b)
        else (Throw SecurityError, b)
    end.

Definition history_pushState := history_write true.
Definition history_replaceState := history_write false.

(** [document.getElementById(id)] followed by
    [getBoundingClientRect().top] *)
Definition getElementById (b : Browser) (id : string) : option Z :=
  option_map snd (find (fun e => fst e =? id) (element_tops b)).

(** [prefetch(url)] *)
Definition prefetch (r : Router) (url : URL) : Browser -> Promise * Browser :=
  async (
    b <- get ;;
    info <- lift (parse r (location b) url) ;;
    match info with
    | None =>
        throw not_owned_prefetch
    | Some info =>
        emit (E_load info) ;;
        ret (Awaits (load_of_renderer info))
    end).

(** [_navigate(url, scroll, chain, hash)], up to its [await] *)
Definition _navigate (r : Router) (url : URL)
  (scroll : option ScrollPosition) (chain : list string)
  (hash : option string) : Browser -> Promise * Browser :=
  async (
    b <- get ;;
    info <- lift (parse r (location b) url) ;;
    match info with
    | None =>
        throw not_owned_navigate
    | Some info =>
        info <-
          (if negb (info_path info =? "/") then
             if incorrect (trailing_slash r) (info_path info) then
               let info := set_path info (rewritten (info_path info)) in
               b <- get ;;
               history_replaceState empty_state
                 (info_path info ++ search (location b)) ;;
               ret info
             else ret info
           else ret info) ;;
        emit (E_notify (info_path info) (info_query info)) ;;
        emit (E_update info chain false) ;;
        ret (Awaits (update_of_renderer scroll hash))
    end).

(** The rest of [_navigate], run when the promise of
    [renderer.update] is fulfilled. *)
Definition _navigate_resume (scroll : option ScrollPosition)
  (hash : option string) : M unit :=
  emit E_focus ;;
  b <- get ;;
  let deep_linked :=
    match hash with
    | Some h => if truthy h then getElementById b (slice h 1 None) else None
    | None => None
    end in
  match scroll with
  | Some s => emit (E_scrollTo (scroll_x s) (scroll_y s))
  | None =>
      match deep_linked with
      | Some top => emit (E_scrollTo 0 (top + pageYOffset b))
      | None => emit (E_scrollTo 0 0)
      end
  end.

(** [goto(href, { noscroll, replaceState }, chain)]; the argument [href]
    is [href_string] here. *)
Definition goto (r : Router) (href_string : string) (opts : GotoOptions)
  (chain : list string) : Browser -> Promise * Browser :=
  async (
    b <- get ;;
    match new_URL href_string (Some (get_base_uri b)) with
    | None => throw TypeError
    | Some url =>
        if enabled r && owns r (location b) url then
          (if replaceState opts
           then history_replaceState empty_state href_string
           else history_pushState empty_state href_string) ;;
          b <- get ;;
          call (_navigate r url
                  (if noscroll opts then Some (scroll_state b) else None)
                  chain (Some (hash url)))
        else
          emit (E_location_href (href url)) ;;
          ret NeverSettles
    end).

(** *** The listeners installed by [init] *)

(** [event.preventDefault()] *)
Definition preventDefault : M unit := emit E_preventDefault.

(** [trigger_prefetch(event)]; the promise of [prefetch] is dropped. *)
Definition trigger_prefetch (r : Router) (event : MouseEvent) : M unit :=
  match find_anchor (event_target event) with
  | Some a =>
      if IDL_truthy (DOM.href a) && hasAttribute a "sveltekit:prefetch" then
        match new_URL (IDL_String (DOM.href a)) None with
        | None => throw TypeError
        | Some url => call (prefetch r url) ;; ret tt
        end
      else ret tt
  | None => ret tt
  end.

(** The [scroll] listener: rearm the 50 ms timer. *)
Definition on_scroll : M unit :=
  fun b => (Normal tt, with_timers b true (mousemove_timeout b)).

(** The callback of that timer: the state written is
    [{ ...(history.state || {}), 'sveltekit:scroll': scroll_state() }]. *)
Definition scroll_timer_fires : M unit :=
  fun b =>
    if scroll_timer b then
      let b := with_timers b false (mousemove_timeout b) in
      history_replaceState {| sveltekit_scroll := Some (scroll_state b) |}
        (href (location b)) b
    else (Normal tt, b).

(** [handle_mousemove(event)]: rearm the 20 ms timer. *)
Definition handle_mousemove (event : MouseEvent) : M unit :=
  fun b => (Normal tt, with_timers b (scroll_timer b) (Some event)).

(** The callback of that timer. *)
Definition mousemove_timeout_fires (r : Router) : M unit :=
  fun b =>
    match mousemove_timeout b with
    | Some event =>
        trigger_prefetch r event (with_timers b (scroll_timer b) None)
    | None => (Normal tt, b)
    end.

(** The [click] listener *)
Definition on_click (r : Router) (event : MouseEvent) : M unit :=
  if negb (enabled r) then ret tt else
  if negb (button event =? 0)%Z || negb (which event =? 1)%Z then ret tt else
  if metaKey event || ctrlKey event || shiftKey event || altKey event
  then ret tt else
  if defaultPrevented event then ret tt else
  match find_anchor (event_target event) with
  | None => ret tt
  | Some a =>
      if negb (IDL_truthy (DOM.href a)) then ret tt else
      let svg := is_SVGAnimatedString (DOM.href a) in
      href_value <- (if svg then lift (baseVal_of (DOM.href a))
                     else ret (DOM.href a)) ;;
      let href_string := IDL_String href_value in
      b <- get ;;
      if href_string =? href (location b) then
        (if negb (truthy (hash (location b))) then preventDefault
         else ret tt)
      else
        let rel := option_map split_whitespace (getAttribute a "rel") in
        if hasAttribute a "download"
           || match rel with
              | Some rel => array_includes rel "external"
              | None => false
              end
        then ret tt else
        target_value <- (if svg then lift (baseVal_of (DOM.target a))
                         else ret (DOM.target a)) ;;
        if IDL_truthy target_value then ret tt else
        match new_URL href_string None with
        | None => throw TypeError
        | Some url =>
            if negb (owns r (location b) url) then ret tt else
            let noscroll := hasAttribute a "sveltekit:noscroll" in
            history_pushState empty_state (href url) ;;
            b <- get ;;
            call (_navigate r url
                    (if noscroll then Some (scroll_state b) else None)
                    [] (Some (hash url))) ;;
            preventDefault
        end
  end.

(** The conditions of the [click] listener, named: the tests on the
    event itself, the string [href] it computes from the anchor, the
    value tested for a target, and the test on [rel]. *)
Definition accepts (event : MouseEvent) : bool :=
  (button event =? 0)%Z && (which event =? 1)%Z
  && negb (metaKey event || ctrlKey event || shiftKey event || altKey event)
  && negb (defaultPrevented event).

Definition anchor_href (a : Node) : option string :=
  match DOM.href a with
  | Undefined => None
  | Str s => if truthy s then Some s else None
  | SVGAnimatedString s => Some s
  end.

Definition anchor_target (a : Node) : completion IDLValue :=
  if is_SVGAnimatedString (DOM.href a) then baseVal_of (DOM.target a)
  else Normal (DOM.target a).

Definition rel_external (a : Node) : bool :=
  match option_map split_whitespace (getAttribute a "rel") with
  | Some rel => array_includes rel "external"
  | None => false
  end.

(** The [popstate] listener; [state] is [event.state]. *)
Definition on_popstate (r : Router) (state : option HistoryState) : M unit :=
  match state with
  | Some state =>
      if enabled r then
        b <- get ;;
        match new_URL (href (location b)) None with
        | None => throw TypeError
        | Some url =>
            call (_navigate r url (sveltekit_scroll state) [] None) ;;
            ret tt
        end
      else ret tt
  | None => ret tt
  end.

(** The [beforeunload] and [load] listeners *)
Definition set_scrollRestoration (v : ScrollRestoration) : M unit :=
  fun b =>
    (Normal tt, with_page b (Some v) (body_tabindex b) (listeners b)).

Definition addEventListener (t : EventType) : M unit :=
  fun b =>
    (Normal tt,
     with_page b (scrollRestoration b) (body_tabindex b)
       (listeners b ++ [t])).

(** [init(renderer)]: the router with its flag set, and what the call
    does to the browser. *)
Definition init (r : Router) : Router * M unit :=
  (set_enabled r true,
   b <- get ;;
   (match scrollRestoration b with
    | Some _ => set_scrollRestoration manual
    | None => ret tt
    end) ;;
   addEventListener beforeunload ;;
   addEventListener load ;;
   addEventListener scroll ;;
   addEventListener touchstart ;;
   addEventListener mousemove ;;
   addEventListener click ;;
   addEventListener popstate ;;
   (fun b =>
      (Normal tt,
       with_page b (scrollRestoration b) (Some "-1") (listeners b))) ;;
   b <- get ;;
   history_replaceState
     (match history_state b with Some s => s | None => empty_state end)
     (href (location b))).

(** *** Events reaching the page *)

Inductive Event :=
| Ev_beforeunload
| Ev_load
| Ev_scroll
| Ev_touchstart (event : MouseEvent)
| Ev_mousemove (event : MouseEvent)
| Ev_click (event : MouseEvent)
| Ev_popstate (state : option HistoryState).

Definition event_type (ev : Event) : EventType :=
  match ev with
  | Ev_beforeunload => beforeunload
  | Ev_load => load
  | Ev_scroll => scroll
  | Ev_touchstart _ => touchstart
  | Ev_mousemove _ => mousemove
  | Ev_click _ => click
  | Ev_popstate _ => popstate
  end.

(** The events whose listener does not read [this.enabled]. *)
Definition unguarded (ev : Event) : bool :=
  match ev with
  | Ev_click _ | Ev_popstate _ => false
  | _ => true
  end.

(** The listener [init] registers for each type. *)
Definition listener (r : Router) (ev : Event) : M unit :=
  match ev with
  | Ev_beforeunload => set_scrollRestoration auto
  | Ev_load => set_scrollRestoration manual
  | Ev_scroll => on_scroll
  | Ev_touchstart event => trigger_prefetch r event
  | Ev_mousemove event => handle_mousemove event
  | Ev_click event => on_click r event
  | Ev_popstate state => on_popstate r state
  end.

(** Dispatch: every installed listener of the type of the event runs, in
    order of registration; an exception in one is reported and does not
    stop the others. *)
Fixpoint run_listeners (r : Router) (ev : Event) (ls : list EventType)
  (b : Browser) : list JSError * Browser :=
  match ls with
  | [] => ([], b)
  | l :: ls' =>
      if EventType_eqb l (event_type ev) then
        match listener r ev b with
        | (Normal _, b') => run_listeners r ev ls' b'
        | (Throw e, b') =>
            let (es, b'') := run_listeners r ev ls' b' in (e :: es, b'')
        end
      else run_listeners r ev ls' b
  end.

Definition dispatch (r : Router) (ev : Event) (b : Browser)
  : list JSError * Browser :=
  run_listeners r ev (listeners b) b.

End RouterMethods.

(** ** A sample platform

    A stand-in for the browser on which the router can be run: absolute
    URLs of the form [scheme://authority/path?query#fragment] and
    references resolved against such a base, with no escaping and no dot
    segments; query strings whose names and values need no escaping.  The
    general theorems below hold for every platform; this one serves the
    concrete runs. *)

Module Sample.

Fixpoint take_until (stop : ascii -> bool) (s : string) : string * string :=
  match s with
  | EmptyString => (EmptyString, EmptyString)
  | String c r =>
      if stop c then (EmptyString, s)
      else let (a, b) := take_until stop r in (String c a, b)
  end.

Definition char_is (c d : ascii) : bool := Ascii.eqb c d.

(** Path, query and fragment of a reference. *)
Definition split_reference (s : string) : string * string * string :=
  let (before, h) := take_until (char_is "#") s in
  let (p, q) := take_until (char_is "?") before in
  (p, if q =? "?" then "" else q, if h =? "#" then "" else h).

(** Origin and remainder of an absolute URL. *)
Definition split_origin (s : string) : option (string * string) :=
  match String.index 0 "://" s with
  | Some n =>
      let scheme := String.substring 0 n s in
      let rest := String.substring (n + 3) (String.length s) s in
      let (authority, tail) :=
        take_until (fun c => char_is "/" c || char_is "?" c || char_is "#" c) rest in
      if truthy scheme && negb (includes scheme "/")
         && negb (includes scheme "?") && negb (includes scheme "#")
      then Some (scheme ++ "://" ++ authority, tail)
      else None
  | None => None
  end.

Definition mkURL (o p q h : string) : URL :=
  {| href := o ++ p ++ q ++ h; origin := o; pathname := p;
     search := q; hash := h |}.

Definition absolute (s : string) : option URL :=
  match split_origin s with
  | Some (o, tail) =>
      let '(p, q, h) := split_reference tail in
      Some (mkURL o (or_default p "/") q h)
  | None => None
  end.

(** The path up to and including its last ['/']. *)
Definition directory (p : string) : string :=
  slice p 0 (Some (Z.of_nat (String.length p)
                   - Z.of_nat (String.length (pop (split p "/"%char)))))%Z.

Definition resolve (url : string) (base : option string) : option URL :=
  match absolute url with
  | Some u => Some u
  | None =>
      match option_map absolute base with
      | Some (Some b) =>
          let '(p, q, h) := split_reference url in
          if String.prefix "//" url then
            match String.index 0 "://" (href b) with
            | Some n => absolute (String.substring 0 (n + 1) (href b) ++ url)
            | None => None
            end
          else if String.prefix "/" url then Some (mkURL (origin b) p q h)
          else if String.prefix "?" url then
            Some (mkURL (origin b) (pathname b) q h)
          else if String.prefix "#" url then
            Some (mkURL (origin b) (pathname b) (search b) h)
          else if url =? "" then
            Some (mkURL (origin b) (pathname b) (search b) "")
          else Some (mkURL (origin b) (directory (pathname b) ++ p) q h)
      | _ => None
      end
  end.

(** Query strings as lists of pairs, in order. *)
Definition Query : Type := list (string * string).

Definition pair_of (s : string) : string * string :=
  let (n, v) := take_until (char_is "=") s in (n, slice v 1 None).

Definition parse_query (init : string) : Query :=
  let init := if String.prefix "?" init then slice init 1 None else init in
  map pair_of (filter truthy (split init "&"%char)).

Definition query_to_string (q : Query) : string :=
  String.concat "&" (map (fun nv => fst nv ++ "=" ++ snd nv) q).

#[global] Instance platform : Platform Query := {|
  new_URLSearchParams := parse_query;
  URLSearchParams_toString := query_to_string;
  new_URL := resolve
|}.

(** A freshly loaded page at [u]: one history entry, nothing installed. *)
Definition page (u : URL) : @Browser Query :=
  {| history_back := [];
     history_entry := {| entry_state := None; entry_url := u |};
     history_forward := [];
     scrollRestoration := Some auto;
     base_href := None;
     pageXOffset := 0; pageYOffset := 0;
     element_tops := [("section", 400%Z)];
     body_tabindex := None;
     listeners := [];
     scroll_timer := false;
     mousemove_timeout := None;
     trace := [] |}.

Definition localhost (path query fragment : string) : URL :=
  mkURL "http://localhost" path query fragment.

(** Routes of a small application: the index page, [/about] with or
    without a trailing slash, and anything under [/blog/]. *)
Definition sample_routes : list CSRRoute :=
  [ {| pattern := fun p => p =? "/"; loader := 0 |};
    {| pattern := fun p => (p =? "/about") || (p =? "/about/"); loader := 1 |};
    {| pattern := fun p => String.prefix "/blog/" p; loader := 2 |} ].

Definition router (base : string) (ts : TrailingSlash) : Router :=
  enable (constructor base sample_routes ts).

(** An HTML anchor with the given resolved [href] and attributes, and a
    [span] inside it on which events land. *)
Definition anchor (url : string) (attrs : list (string * string)) : Node :=
  DOM.mkNode "A" (Str url) (Str "") attrs None.

Definition inside (a : Node) : Node :=
  DOM.mkNode "SPAN" Undefined Undefined [] (Some a).

(** A plain click with the primary button, or a touch, on [n]. *)
Definition on_node (n : Node) : MouseEvent :=
  {| button := 0; which := 1; metaKey := false; ctrlKey := false;
     shiftKey := false; altKey := false; defaultPrevented := false;
     event_target := Some n |}.

(** The page after [init]. *)
Definition started (r : Router) (u : URL) : @Browser Query :=
  snd (snd (init r) (page u)).

(** A router mounted under [/app] that strips trailing slashes, and
    the page [/app/docs/?x=1] of that application, which no route
    matches. *)
Definition app_router : Router := router "/app" never.
Definition docs_slash : URL := localhost "/app/docs/" "?x=1" "".

(** What [parse] makes of it. *)
Definition docs_info : @NavigationInfo Query :=
  {| info_id := "/docs/?x=1"; info_routes := [];
     info_path := "/docs/"; info_query := [("x", "1")] |}.

(** [_navigate] to that page, on that page. *)
Definition docs_navigated : @Browser Query :=
  snd (_navigate app_router docs_slash None [] None
         (started app_router docs_slash)).

(** A page with an escaped space in its path. *)
Definition spaced : URL := localhost "/app/a%20b/" "?x=1" "".

(** A router mounted at the root and its start page. *)
Definition root_router : Router := router "" ignore.
Definition home : URL := localhost "/" "" "".

(** A URL of the application whose path holds a lone ['%']:
    [new URL('http://localhost/%').pathname] is ['/%']. *)
Definition lone_percent : URL := localhost "/%" "" "".

(** The page [/page], a link [<a href="#section">] on it, whose [href]
    property reads [http://localhost/page#section], and a click on that
    link. *)
Definition a_page : URL := localhost "/page" "" "".
Definition hash_link : Node := anchor "http://localhost/page#section" [].
Definition hash_clicked : @Browser Query :=
  snd (on_click root_router (on_node (inside hash_link))
         (started root_router a_page)).

(** A link marked for prefetching, and a link without marks. *)
Definition prefetch_link : Node :=
  anchor "http://localhost/contact" [("sveltekit:prefetch", "")].
Definition contact_link : Node := anchor "http://localhost/contact" [].
Definition contact : URL := localhost "/contact" "" "".
Definition contact_info : @NavigationInfo Query :=
  {| info_id := "/contact?"; info_routes := [];
     info_path := "/contact"; info_query := [] |}.

End Sample.

(** ** Configuration options: [core/load_config/options.js]

    The validators take any JavaScript value.  Of a number they see the
    type and whether it is falsy, so numbers are left abstract; functions
    are either the arrow function [() => config] that the [vite] validator
    builds, or some other function, told apart by a number.  An object is
    the list of its own data properties, the first entry of a name being
    the one that counts; arrays have no holes.  Symbols and big integers
    are left out: no validator tells them from numbers. *)

Class Numbers (Number : Type) := {
  Number_truthy : Number -> bool
}.

Section Values.

Context {Number : Type}.

#[local] Set Warnings "-register-all".

Inductive JSValue :=
| JUndefined
| JNull
| JBoolean (b : bool)
| JNumber (n : Number)
| JString (s : string)
| JArray (items : list JSValue)
| JObject (properties : list (string * JSValue))
| JThunk (result : JSValue)
| JFunction (id : nat).

(** [typeof v] *)
Definition typeof (v : JSValue) : string :=
  match v with
  | JUndefined => "undefined"
  | JNull | JArray _ | JObject _ => "object"
  | JBoolean _ => "boolean"
  | JNumber _ => "number"
  | JString _ => "string"
  | JThunk _ | JFunction _ => "function"
  end.

(** [Array.isArray(v)] *)
Definition isArray (v : JSValue) : bool :=
  match v with
  | JArray _ => true
  | _ => false
  end.

(** [Array.isArray(v) && v.every((x) => typeof x === 'string')], with the
    strings when it holds *)
Definition string_of (v : JSValue) : option string :=
  match v with
  | JString s => Some s
  | _ => None
  end.

Fixpoint strings_of (items : list JSValue) : option (list string) :=
  match items with
  | [] => Some []
  | v :: rest =>
      match string_of v, strings_of rest with
      | Some s, Some l => Some (s :: l)
      | _, _ => None
      end
  end.

Definition array_of_strings (v : JSValue) : option (list string) :=
  match v with
  | JArray items => strings_of items
  | _ => None
  end.

(** Truthiness *)
Definition value_truthy {N : Numbers Number} (v : JSValue) : bool :=
  match v with
  | JUndefined | JNull => false
  | JBoolean b => b
  | JNumber n => Number_truthy n
  | JString s => truthy s
  | JArray _ | JObject _ | JThunk _ | JFunction _ => true
  end.

(** [v.adapt]: a [TypeError] on [null] and [undefined]; the property of an
    object; [undefined] on every other value, none of which has a property
    of that name. *)
Definition get_adapt (v : JSValue) : completion JSValue :=
  match v with
  | JUndefined | JNull => Throw TypeError
  | JObject properties =>
      Normal match find (fun kv => fst kv =? "adapt") properties with
             | Some kv => snd kv
             | None => JUndefined
             end
  | _ => Normal JUndefined
  end.

(** [ConfigDefinition]: a leaf with its default and its validator, or a
    branch with its children in the order they are written. *)
Inductive ConfigDefinition :=
| leaf (default : JSValue) (validate : JSValue -> string -> completion JSValue)
| branch (children : list (string * ConfigDefinition)).

(** [noop]: returns [undefined]. *)
Definition noop (option : JSValue) (keypath : string) : completion JSValue :=
  Normal JUndefined.

(** [assert_is_string(option, keypath)] *)
Definition assert_is_string (option : JSValue) (keypath : string)
  : completion unit :=
  if negb (typeof option =? "string") then
    Throw (Error (keypath ++ " should be a string, if specified"))
  else Normal tt.

(** [expect_string(string, allow_empty = true)]; the first argument is a
    string or [null]. *)
Definition expect_string (string : JSValue) (allow_empty : bool)
  : ConfigDefinition :=
  leaf string (fun option keypath =>
    match assert_is_string option keypath with
    | Throw e => Throw e
    | Normal _ =>
        if negb allow_empty && match option with
                               | JString "" => true
                               | _ => false
                               end
        then Throw (Error (keypath ++ " cannot be empty"))
        else Normal option
    end).

(** [expect_array_of_strings(array)] *)
Definition expect_array_of_strings (array : list string) : ConfigDefinition :=
  leaf (JArray (map JString array)) (fun option keypath =>
    match array_of_strings option with
    | None => Throw (Error (keypath ++ " must be an array of strings"))
    | Some _ => Normal option
    end).

(** [expect_boolean(boolean)] *)
Definition expect_boolean (boolean : bool) : ConfigDefinition :=
  leaf (JBoolean boolean) (fun option keypath =>
    if negb (typeof option =? "boolean") then
      Throw (Error (keypath ++ " should be true or false, if specified"))
    else Normal option).

(** The double quote, and [`"${s}"`]. *)
Definition dquote : string := String (ascii_of_nat 34) "".

Definition quoted (s : string) : string := dquote ++ s ++ dquote.

(** [a[i]] in a template literal: ["undefined"] out of bounds. *)
Definition nth_or_undefined (a : list string) (i : nat) : string :=
  nth i a "undefined".

(** The message of [expect_enum] *)
Definition enum_message (options : list string) (keypath : string) : string :=
  if (2 <? List.length options)%nat then
    keypath ++ " should be one of "
    ++ String.concat ", " (map quoted (removelast options))
    ++ " or " ++ quoted (nth_or_undefined options (List.length options - 1))
  else
    keypath ++ " should be either " ++ quoted (nth_or_undefined options 0)
    ++ " or " ++ quoted (nth_or_undefined options 1).

(** [options.includes(option)] for an array of strings *)
Definition enum_includes (options : list string) (option : JSValue) : bool :=
  match option with
  | JString s => array_includes options s
  | _ => false
  end.

(** [expect_enum(options, def = options[0])]: the default value of the
    parameter is taken when [def] is omitted or [undefined]. *)
Definition expect_enum (options : list string) (def : JSValue)
  : ConfigDefinition :=
  leaf (match def with
        | JUndefined => match options with
                        | o :: _ => JString o
                        | [] => JUndefined
                        end
        | d => d
        end)
       (fun option keypath =>
          if negb (enum_includes options option) then
            Throw (Error (enum_message options keypath))
          else Normal option).

(** *** The validators written in place *)

Definition alphanumeric (c : ascii) : bool :=
  let n := nat_of_ascii c in
  ((48 <=? n) && (n <=? 57) || (65 <=? n) && (n <=? 90)
   || (97 <=? n) && (n <=? 122))%nat.

(** [/^(\.[a-z0-9]+)+$/i.test(s)], as the automaton of the pattern: a
    dot is expected, then a first letter or digit, then more of them, a
    dot that opens the next group, or the end. *)
Inductive pattern_state := at_dot | at_first | in_name.

Fixpoint pattern_run (st : pattern_state) (s : string) : bool :=
  match s with
  | EmptyString => match st with in_name => true | _ => false end
  | String c r =>
      match st with
      | at_dot => if Ascii.eqb c "." then pattern_run at_first r else false
      | at_first => if alphanumeric c then pattern_run in_name r else false
      | in_name =>
          if alphanumeric c then pattern_run in_name r
          else if Ascii.eqb c "." then pattern_run at_first r
          else false
      end
  end.

Definition extension_pattern (s : string) : bool := pattern_run at_dot s.

(** [s[0] !== c] *)
Definition first_is_not (s : string) (c : ascii) : bool :=
  match s with
  | String d _ => negb (Ascii.eqb d c)
  | EmptyString => true
  end.

(** The body of [option.forEach((extension) => ...)] and the loop *)
Definition check_extension (keypath extension : string) : completion unit :=
  if first_is_not extension "." then
    Throw (Error ("Each member of " ++ keypath
                  ++ " must start with '.' — saw '" ++ extension ++ "'"))
  else if negb (extension_pattern extension) then
    Throw (Error ("File extensions must be alphanumeric — saw '"
                  ++ extension ++ "'"))
  else Normal tt.

Fixpoint forEach (f : string -> completion unit) (l : list string)
  : completion unit :=
  match l with
  | [] => Normal tt
  | x :: rest =>
      match f x with
      | Throw e => Throw e
      | Normal _ => forEach f rest
      end
  end.

(** [extensions.validate] *)
Definition validate_extensions (option : JSValue) (keypath : string)
  : completion JSValue :=
  match array_of_strings option with
  | None => Throw (Error (keypath ++ " must be an array of strings"))
  | Some l =>
      match forEach (check_extension keypath) l with
      | Throw e => Throw e
      | Normal _ => Normal option
      end
  end.

(** [kit.adapter.validate] *)
Definition validate_adapter {N : Numbers Number} (option : JSValue)
  (keypath : string) : completion JSValue :=
  match (if negb (typeof option =? "object") then Normal true
         else match get_adapt option with
              | Throw e => Throw e
              | Normal adapt => Normal (negb (value_truthy adapt))
              end) with
  | Throw e => Throw e
  | Normal true =>
      let message :=
        keypath ++ " should be an object with an " ++ quoted "adapt"
        ++ " method" in
      let message :=
        if isArray option || (typeof option =? "string")
        then message ++ ", rather than the name of an adapter"
        else message in
      Throw (Error (message ++ ". See https://kit.svelte.dev/docs#adapters"))
  | Normal false => Normal option
  end.

(** The body of [option.forEach((page) => ...)] of [kit.prerender.pages] *)
Definition check_page (keypath page : string) : completion unit :=
  if negb (page =? "*") && first_is_not page "/" then
    Throw (Error ("Each member of " ++ keypath
                  ++ " must be either '*' or an absolute path beginning"
                  ++ " with '/' — saw '" ++ page ++ "'"))
  else Normal tt.

(** [kit.prerender.pages.validate] *)
Definition validate_pages (option : JSValue) (keypath : string)
  : completion JSValue :=
  match array_of_strings option with
  | None => Throw (Error (keypath ++ " must be an array of strings"))
  | Some l =>
      match forEach (check_page keypath) l with
      | Throw e => Throw e
      | Normal _ => Normal option
      end
  end.

(** [kit.vite.validate] *)
Definition validate_vite (option : JSValue) (keypath : string)
  : completion JSValue :=
  let option :=
    if typeof option =? "object" then JThunk option else option in
  if negb (typeof option =? "function") then
    Throw (Error (keypath ++ " must be a Vite config object"
                  ++ " (https://vitejs.dev/config) or a function that"
                  ++ " returns one"))
  else Normal option.

(** [options] *)
Definition options {N : Numbers Number} : list (string * ConfigDefinition) :=
  [ ("compilerOptions", leaf JNull noop);
    ("extensions", leaf (JArray [JString ".svelte"]) validate_extensions);
    ("kit", branch
       [ ("adapter", leaf JNull validate_adapter);
         ("amp", expect_boolean false);
         ("appDir", expect_string (JString "_app") false);
         ("files", branch
            [ ("assets", expect_string (JString "static") true);
              ("hooks", expect_string (JString "src/hooks") true);
              ("lib", expect_string (JString "src/lib") true);
              ("routes", expect_string (JString "src/routes") true);
              ("serviceWorker",
               expect_string (JString "src/service-worker") true);
              ("setup", expect_string (JString "src/setup") true);
              ("template", expect_string (JString "src/app.html") true) ]);
         ("floc", expect_boolean false);
         ("host", expect_string JNull true);
         ("hostHeader", expect_string JNull true);
         ("hydrate", expect_boolean true);
         ("package", branch
            [ ("dir", expect_string (JString "package") true);
              ("exports", branch
                 [ ("include", expect_array_of_strings ["**"]);
                   ("exclude", expect_array_of_strings ["_*"; "**/_*"]) ]);
              ("files", branch
                 [ ("include", expect_array_of_strings ["**"]);
                   ("exclude", expect_array_of_strings []) ]) ]);
         ("paths", branch
            [ ("base", expect_string (JString "") true);
              ("assets", expect_string (JString "") true) ]);
         ("prerender", branch
            [ ("crawl", expect_boolean true);
              ("enabled", expect_boolean true);
              ("force", expect_boolean false);
              ("pages", leaf (JArray [JString "*"]) validate_pages) ]);
         ("router", expect_boolean true);
         ("ssr", expect_boolean true);
         ("target", expect_string JNull true);
         ("trailingSlash",
          expect_enum ["never"; "always"; "ignore"] JUndefined);
         ("vite", leaf (JThunk (JObject [])) validate_vite) ]);
    ("preprocess", leaf JNull noop) ].

(** *** Reading the tree *)

(** The definition under a path of keys. *)
Fixpoint definition_at (d : ConfigDefinition) (path : list string)
  : option ConfigDefinition :=
  match path with
  | [] => Some d
  | key :: rest =>
      match d with
      | branch children =>
          match find (fun kd => fst kd =? key) children with
          | Some kd => definition_at (snd kd) rest
          | None => None
          end
      | leaf _ _ => None
      end
  end.

(** The leaves of a definition, each with the path of keys that leads to
    it, in the order they are written. *)
Fixpoint leaves (path : list string) (d : ConfigDefinition)
  : list (list string * JSValue
          * (JSValue -> string -> completion JSValue)) :=
  match d with
  | leaf default validate => [(path, default, validate)]
  | branch children =>
      (fix over (l : list (string * ConfigDefinition)) :=
         match l with
         | [] => []
         | (key, c) :: rest => (leaves (path ++ [key]) c ++ over rest)%list
         end) children
  end.

(** [definition.default] and [definition.validate(option, keypath)]; a
    branch has neither: the one is [undefined], calling the other is a
    [TypeError]. *)
Definition default_of (d : ConfigDefinition) : JSValue :=
  match d with
  | leaf default _ => default
  | branch _ => JUndefined
  end.

Definition validate_of (d : ConfigDefinition) (option : JSValue)
  (keypath : string) : completion JSValue :=
  match d with
  | leaf _ validate => validate option keypath
  | branch _ => Throw TypeError
  end.

(** *** Notions used to state the properties of the validators *)

(** The policy of the router that a value of [kit.trailingSlash] names. *)
Definition TrailingSlash_of (v : JSValue) : option TrailingSlash :=
  match v with
  | JString s =>
      if s =? "never" then Some never
      else if s =? "always" then Some always
      else if s =? "ignore" then Some ignore
      else None
  | _ => None
  end.

(** The strings the pattern of [extensions] is meant to accept: groups of
    a dot followed by letters and digits, one after the other. *)
Fixpoint every_char (p : ascii -> bool) (s : string) : bool :=
  match s with
  | EmptyString => true
  | String c r => p c && every_char p r
  end.

Definition alphanumeric_word (g : string) : bool :=
  truthy g && every_char alphanumeric g.

Fixpoint dotted (groups : list string) : string :=
  match groups with
  | [] => ""
  | g :: rest => "." ++ g ++ dotted rest
  end.

(** The test of [kit.prerender.pages] on one page, as a boolean. *)
Definition page_allowed (page : string) : bool :=
  (page =? "*") || negb (first_is_not page "/").

(** The property [adapt] of an object literal. *)
Definition adapt_of (properties : list (string * JSValue)) : JSValue :=
  match find (fun kv => fst kv =? "adapt") properties with
  | Some kv => snd kv
  | None => JUndefined
  end.

(** The message of [kit.adapter] without and with its hint. *)
Definition adapter_message (keypath : string) (hint : bool) : string :=
  keypath ++ " should be an object with an " ++ quoted "adapt" ++ " method"
  ++ (if hint then ", rather than the name of an adapter" else "")
  ++ ". See https://kit.svelte.dev/docs#adapters".

End Values.

Module SampleConfig.

(** Numbers for the examples: integers, of which only zero is falsy. *)
#[global] Instance numbers : Numbers Z :=
  {| Number_truthy := fun n => negb (n =? 0)%Z |}.

End SampleConfig.

(** ** Notions used to state further properties *)

(** A node followed by its parent, the parent of that, and so on up to the
    root: the nodes the loop of [find_anchor] may visit, in that order. *)
Fixpoint ancestors (node : Node) : list Node :=
  match node with
  | DOM.mkNode _ _ _ _ parent =>
      node :: match parent with
              | Some p => ancestors p
              | None => []
              end
  end.

(** The test that ends the loop of [find_anchor]. *)
Definition is_anchor (node : Node) : bool :=
  toUpperCase (DOM.nodeName node) =? "A".

(** The effects [_navigate] can add to the trace. *)
Definition navigation_effect {URLSearchParams : Type}
  (e : @Effect URLSearchParams) : bool :=
  match e with
  | E_replaceState _ _ | E_notify _ _ | E_update _ _ _ => true
  | _ => false
  end.

(** The seven listeners of [init], in the order of registration. *)
Definition init_listeners : list EventType :=
  [beforeunload; load; scroll; touchstart; mousemove; click; popstate].

(** * Properties *)

(** ** Strings *)

Lemma length_append (s t : string) :
  String.length (s ++ t) = String.length s + String.length t.
Proof. induction s as [|c s IH]; simpl; [reflexivity | now rewrite IH]. Qed.

Lemma append_empty_r (s : string) : s ++ "" = s.
Proof. induction s as [|c s IH]; simpl; [reflexivity | now rewrite IH]. Qed.

Lemma append_assoc (s t u : string) : (s ++ t) ++ u = s ++ (t ++ u).
Proof. induction s as [|c s IH]; simpl; [reflexivity | now rewrite IH]. Qed.

Lemma append_inv_tail (s t u : string) : s ++ u = t ++ u -> s = t.
Proof.
  revert t. induction s as [|c s IH]; intros [|d t] H; simpl in H.
  - reflexivity.
  - apply (f_equal String.length) in H. simpl in H.
    rewrite length_append in H. lia.
  - apply (f_equal String.length) in H. simpl in H.
    rewrite length_append in H. lia.
  - injection H as -> H. f_equal. now apply IH.
Qed.

Lemma substring_all (s : string) : String.substring 0 (String.length s) s = s.
Proof. induction s as [|c s IH]; simpl; [reflexivity | now rewrite IH]. Qed.

Lemma substring_app_l (s t : string) :
  String.substring 0 (String.length s) (s ++ t) = s.
Proof.
  induction s as [|c s IH]; simpl.
  - now destruct t.
  - now rewrite IH.
Qed.

Lemma substring_app_r (s t : string) :
  String.substring (String.length s) (String.length t) (s ++ t) = t.
Proof.
  induction s as [|c s IH]; simpl; [apply substring_all | exact IH].
Qed.

Lemma prefix_app (s t : string) :
  String.prefix s t = true <-> exists r, t = s ++ r.
Proof.
  revert t. induction s as [|c s IH]; intros t; simpl.
  - split; [intros _; exists t; reflexivity | now destruct t].
  - destruct t as [|d t]; simpl.
    + split; [discriminate | intros [r H]; discriminate].
    + destruct (ascii_dec c d) as [->|n].
      * rewrite IH. split; intros [r H]; exists r.
        -- now rewrite H.
        -- now injection H.
      * split; [discriminate | intros [r H]; injection H; congruence].
Qed.

(** [p.slice(b.length)] removes the prefix [b] from [p]. *)
Lemma slice_prefix (b rest : string) :
  slice (b ++ rest) (Z.of_nat (String.length b)) None = rest.
Proof.
  unfold slice, clamp. rewrite length_append.
  destruct (Z.ltb_spec (Z.of_nat (String.length b)) 0) as [H|_]; [lia|].
  replace (Z.to_nat (Z.min _ _)) with (String.length b) by lia.
  replace (Z.to_nat (Z.max _ 0)) with (String.length rest) by lia.
  apply substring_app_r.
Qed.

(** [s.slice(0, -1)] removes the last character. *)
Lemma slice_drop_last (p : string) (c : ascii) :
  slice (p ++ String c "") 0 (Some (-1)%Z) = p.
Proof.
  unfold slice, clamp. rewrite length_append. simpl String.length.
  change (0 <? 0)%Z with false. change (-1 <? 0)%Z with true. cbv iota.
  replace (Z.to_nat (Z.min 0 _)) with 0 by lia.
  replace (Z.to_nat (Z.max _ 0)) with (String.length p) by lia.
  apply substring_app_l.
Qed.

Lemma endsWith_app (s t : string) :
  endsWith s t = true <-> exists p, s = p ++ t.
Proof.
  induction s as [|c s IH]; cbn [endsWith].
  - rewrite orb_false_r. split.
    + intros H. apply String.eqb_eq in H. subst. now exists "".
    + intros [[|d p] H]; simpl in H; [subst; reflexivity | discriminate].
  - rewrite orb_true_iff, IH, String.eqb_eq. split.
    + intros [<- | [p ->]]; [now exists "" | now exists (String c p)].
    + intros [[|d p] H]; simpl in H.
      * now left.
      * injection H as <- ->. right. now exists p.
Qed.

Lemma endsWith_append (p t : string) : endsWith (p ++ t) t = true.
Proof. apply endsWith_app. now exists p. Qed.

(** ** String methods on known values *)

Example slice_examples :
  slice "/app/about/" 4 None = "/about/"
  /\ slice "/about/" 0 (Some (-1)%Z) = "/about"
  /\ slice "#section" 1 None = "section"
  /\ slice "/" 1 None = ""
  /\ slice "" 0 (Some (-1)%Z) = "".
Proof. repeat split. Qed.

Example split_examples :
  split "/a/b.c" "/"%char = [""; "a"; "b.c"]
  /\ pop (split "/a/b.c" "/"%char) = "b.c"
  /\ pop (split "/a.b/c/" "/"%char) = ""
  /\ split "" "/"%char = [""].
Proof. repeat split. Qed.

Example split_whitespace_examples :
  split_whitespace "noopener  external" = ["noopener"; "external"]
  /\ split_whitespace " a" = [""; "a"]
  /\ split_whitespace "a " = ["a"; ""]
  /\ split_whitespace "" = [""]
  /\ split_whitespace ("a" ++ of_bytes [226; 128; 168] ++ "b") = ["a"; "b"].
Proof. repeat split. Qed.

Example decodeURIComponent_examples :
  decodeURIComponent "/a%20b" = Some "/a b"
  /\ decodeURIComponent "/caf%C3%A9" = Some ("/caf" ++ of_bytes [195; 169])
  /\ decodeURIComponent "%F0%9F%98%80" = Some (of_bytes [240; 159; 152; 128])
  /\ decodeURIComponent "/%" = None
  /\ decodeURIComponent "/%2" = None
  /\ decodeURIComponent "/%zz" = None
  /\ decodeURIComponent "%C3" = None
  /\ decodeURIComponent "%C3x" = None
  /\ decodeURIComponent "%C0%80" = None
  /\ decodeURIComponent "%ED%A0%80" = None
  /\ decodeURIComponent "%80" = None
  /\ decodeURIComponent "%FF" = None.
Proof. repeat split. Qed.

(** ** [decodeURIComponent] *)

(** A string without ['%'] decodes to itself. *)
Lemma decodeURIComponent_plain (s : string) :
  includes s "%" = false -> decodeURIComponent s = Some s.
Proof.
  unfold decodeURIComponent.
  induction s as [|c s IH]; [reflexivity|].
  cbn [includes]. intros H. apply orb_false_iff in H as [Hc Hs].
  cbn [Decode]. unfold percent.
  destruct (Ascii.eqb_spec c "%"%char) as [->|_].
  - simpl in Hc. now destruct s.
  - now rewrite (IH Hs).
Qed.

(** In the middle of a multi-byte sequence the decoder cannot finish
    with an empty result. *)
Lemma Decode_pending_nonempty (s : string) :
  forall pending need, need <> 0 -> Decode pending need s <> Some "".
Proof.
  induction s as [s IH] using
    (well_founded_induction (Wf_nat.well_founded_ltof _ String.length)).
  intros pending [|k] Hn; [congruence|].
  destruct s as [|c s']; [discriminate|]. cbn [Decode].
  destruct (Ascii.eqb c percent); [|discriminate].
  destruct s' as [|h [|l t]]; try discriminate.
  destruct (hex_byte h l); [|discriminate].
  destruct k as [|k'].
  - destruct (valid_utf8 _); [|discriminate].
    destruct (Decode [] 0 t); [|discriminate]. cbn [option_map].
    destruct pending; discriminate.
  - apply IH; [unfold Wf_nat.ltof; simpl; lia | congruence].
Qed.

(** The decoded form of a non-empty string is not empty. *)
Lemma decodeURIComponent_nonempty (s : string) :
  s <> "" -> decodeURIComponent s <> Some "".
Proof.
  unfold decodeURIComponent. destruct s as [|c r]; [congruence|]. intros _.
  cbn [Decode]. destruct (Ascii.eqb c percent).
  - destruct r as [|h [|l r']]; try discriminate.
    destruct (hex_byte h l) as [B|]; [|discriminate].
    destruct (leading_ones B) as [|[|[|[|[|n]]]]]; try discriminate;
      try (now apply Decode_pending_nonempty).
    destruct (Decode [] 0 r'); discriminate.
  - destruct (Decode [] 0 r); discriminate.
Qed.

(** ** The navigation resolver: [owns] and [parse] *)

Section ResolverProperties.

Context {URLSearchParams : Type} {P : Platform URLSearchParams}.

Lemma owns_true (r : Router) (loc u : URL) :
  owns r loc u = true <->
  origin u = origin loc /\ startsWith (pathname u) (base r) = true.
Proof. unfold owns. now rewrite andb_true_iff, String.eqb_eq. Qed.

Lemma owns_false (r : Router) (loc u : URL) :
  owns r loc u = false <->
  ~ (origin u = origin loc /\ startsWith (pathname u) (base r) = true).
Proof.
  rewrite <- owns_true. destruct (owns r loc u); split; congruence.
Qed.

(** [parse] by cases. *)
Lemma parse_not_owned (r : Router) (loc u : URL) :
  owns r loc u = false -> parse r loc u = Normal None.
Proof. unfold parse. now intros ->. Qed.

Lemma parse_malformed (r : Router) (loc u : URL) :
  owns r loc u = true ->
  decodeURIComponent (stripped_pathname r u) = None ->
  parse r loc u = Throw URIError.
Proof. unfold parse. now intros -> ->. Qed.

Lemma parse_owned (r : Router) (loc u : URL) (path : string) :
  owns r loc u = true ->
  decodeURIComponent (stripped_pathname r u) = Some path ->
  parse r loc u =
  Normal (Some
    {| info_id :=
         path ++ "?"
         ++ URLSearchParams_toString (new_URLSearchParams (search u));
       info_routes := filter (fun route => pattern route path) (routes r);
       info_path := path;
       info_query := new_URLSearchParams (search u) |}).
Proof. unfold parse. now intros -> ->. Qed.

(** C1 (as amended): [parse(u)] returns a [NavigationInfo] if and only
    if the origin of [u] is the current origin, its pathname starts with
    the base, and what is left of the pathname after the base decodes
    without a [URIError]; [parse(u)] is absent exactly when [u] is not
    owned, and throws [URIError] exactly when [u] is owned and does not
    decode.  For every URL with another origin, [owns(u)] is false and
    [parse(u)] is absent. *)
Theorem parse_info_iff_owned_and_decodable (r : Router) (loc u : URL) :
  ((exists info, parse r loc u = Normal (Some info)) <->
   (origin u = origin loc /\ startsWith (pathname u) (base r) = true
    /\ decodeURIComponent (stripped_pathname r u) <> None))
  /\ (parse r loc u = Normal None <->
      ~ (origin u = origin loc /\ startsWith (pathname u) (base r) = true))
  /\ (parse r loc u = Throw URIError <->
      (origin u = origin loc /\ startsWith (pathname u) (base r) = true
       /\ decodeURIComponent (stripped_pathname r u) = None))
  /\ (origin u <> origin loc ->
      owns r loc u = false /\ parse r loc u = Normal None).
Proof.
  pose proof (owns_true r loc u) as [OT1 OT2]. unfold parse.
  destruct (owns r loc u) eqn:O.
  - destruct (OT1 eq_refl) as [Ho Hb].
    destruct (decodeURIComponent (stripped_pathname r u)) as [path|] eqn:D.
    + split; [|split; [|split]].
      * split; [intros _; repeat split; congruence|].
        intros _. eexists. reflexivity.
      * split; [discriminate | intros H; exfalso; apply H; now split].
      * split; [discriminate | intros (_ & _ & ?); discriminate].
      * congruence.
    + split; [|split; [|split]].
      * split; [intros [info H]; discriminate | intros (_ & _ & H)].
        now contradiction H.
      * split; [discriminate | intros H; exfalso; apply H; now split].
      * split; [now intros _ | reflexivity].
      * congruence.
  - assert (N : ~ (origin u = origin loc
                   /\ startsWith (pathname u) (base r) = true))
      by (intros H; specialize (OT2 H); discriminate).
    split; [|split; [|split]].
    + split; [intros [info H]; discriminate | intros (Ho & Hb & _)].
      exfalso. apply N. now split.
    + split; [now intros _ | reflexivity].
    + split; [discriminate | intros (Ho & Hb & _)].
      exfalso. apply N. now split.
    + now intros _.
Qed.

(** C2 (as amended): for every owned URL [u] whose pathname, once the
    base is removed, decodes without a [URIError], [parse(u)] returns a
    [NavigationInfo] whose path is the decoded, base-stripped pathname
    (['/'] if nothing is left after the base) and whose id is the path,
    ['?'] and the stringified query; every call to [parse] on that URL
    yields the same id. *)
Theorem parse_path_and_id (r : Router) (loc u : URL) (path : string) :
  origin u = origin loc ->
  startsWith (pathname u) (base r) = true ->
  decodeURIComponent (stripped_pathname r u) = Some path ->
  let rest := slice (pathname u) (Z.of_nat (String.length (base r))) None in
  pathname u = base r ++ rest
  /\ (rest = "" -> path = "/")
  /\ (rest <> "" -> decodeURIComponent rest = Some path)
  /\ exists info,
       parse r loc u = Normal (Some info)
       /\ info_path info = path
       /\ info_query info = new_URLSearchParams (search u)
       /\ info_id info =
          path ++ "?" ++ URLSearchParams_toString (info_query info)
       /\ info_routes info =
          filter (fun route => pattern route path) (routes r)
       /\ forall info',
            parse r loc u = Normal (Some info') -> info_id info' = info_id info.
Proof.
  intros Ho Hb D rest.
  assert (O : owns r loc u = true) by (apply owns_true; now split).
  unfold startsWith in Hb. apply prefix_app in Hb as [tail Ht].
  assert (Hrest : rest = tail).
  { unfold rest. rewrite Ht. apply slice_prefix. }
  unfold stripped_pathname in D. fold rest in D.
  split; [now rewrite Hrest|].
  split.
  { intros E. rewrite E in D. simpl in D. now injection D. }
  split.
  { intros E. destruct rest; [congruence | exact D]. }
  assert (D' : decodeURIComponent (stripped_pathname r u) = Some path)
    by exact D.
  rewrite (parse_owned r loc u path O D').
  eexists. split; [reflexivity|]. cbn.
  repeat split. intros info' H. now injection H as <-.
Qed.

End ResolverProperties.

(** ** The trailing-slash step *)

Lemma normalize_root (ts : TrailingSlash) : normalize_trailing_slash ts "/" = "/".
Proof. reflexivity. Qed.

Lemma normalize_correct (ts : TrailingSlash) (path : string) :
  path = "/" \/ incorrect ts path = false ->
  normalize_trailing_slash ts path = path.
Proof.
  unfold normalize_trailing_slash.
  intros [-> | ->]; [reflexivity | now destruct (negb _)].
Qed.

Lemma normalize_incorrect (ts : TrailingSlash) (path : string) :
  path <> "/" -> incorrect ts path = true ->
  normalize_trailing_slash ts path = rewritten path.
Proof.
  unfold normalize_trailing_slash. intros Hp ->.
  apply String.eqb_neq in Hp. now rewrite Hp.
Qed.

Lemma rewritten_trailing (stem : string) : rewritten (stem ++ "/") = stem.
Proof.
  unfold rewritten, has_trailing_slash.
  rewrite endsWith_append. apply slice_drop_last.
Qed.

Lemma rewritten_no_trailing (path : string) :
  endsWith path "/" = false -> rewritten path = path ++ "/".
Proof. unfold rewritten, has_trailing_slash. now intros ->. Qed.

(** The rewritten path always differs from the path: it is one character
    shorter or one longer. *)
Lemma rewritten_length (path : string) :
  String.length (rewritten path) <> String.length path.
Proof.
  destruct (endsWith path "/") eqn:E.
  - apply endsWith_app in E as [stem ->].
    rewrite rewritten_trailing, length_append. simpl. lia.
  - rewrite (rewritten_no_trailing _ E), length_append. simpl. lia.
Qed.

Lemma incorrect_never (path : string) :
  incorrect never path = endsWith path "/".
Proof.
  unfold incorrect, has_trailing_slash. simpl.
  now rewrite andb_true_r, !andb_false_r, orb_false_r.
Qed.

Lemma incorrect_always (path : string) :
  incorrect always path =
  negb (endsWith path "/") && negb (includes (pop (split path "/"%char)) ".").
Proof.
  unfold incorrect, has_trailing_slash. simpl.
  now rewrite andb_false_r, andb_true_r.
Qed.

Lemma incorrect_ignore (path : string) : incorrect ignore path = false.
Proof.
  unfold incorrect. simpl. now rewrite !andb_false_r.
Qed.

(** C9 (as amended): a path in which the step finds nothing incorrect is
    returned unchanged; the output of the step is such a path under
    [always] and [ignore] for every input, and under [never] for every
    input that does not end in two slashes (the step removes one slash),
    so that normalizing twice is the same as normalizing once there. *)
Theorem normalize_idempotent (ts : TrailingSlash) (path : string) :
  (ts = never -> endsWith path "//" = false) ->
  (normalize_trailing_slash ts path = "/"
   \/ incorrect ts (normalize_trailing_slash ts path) = false)
  /\ normalize_trailing_slash ts (normalize_trailing_slash ts path)
     = normalize_trailing_slash ts path.
Proof.
  intros Hnever.
  assert (G : normalize_trailing_slash ts path = "/"
              \/ incorrect ts (normalize_trailing_slash ts path) = false).
  { destruct (String.eqb_spec path "/") as [->|Hp]; [now left|].
    destruct (incorrect ts path) eqn:I.
    2: { right. rewrite normalize_correct; [exact I | now right]. }
    right. rewrite (normalize_incorrect ts path Hp I).
    destruct ts.
    - rewrite incorrect_never in *.
      apply endsWith_app in I as [stem ->]. rewrite rewritten_trailing.
      destruct (endsWith stem "/") eqn:E; [|reflexivity].
      apply endsWith_app in E as [stem' ->].
      rewrite append_assoc in Hnever. simpl in Hnever.
      rewrite endsWith_append in Hnever. now specialize (Hnever eq_refl).
    - rewrite incorrect_always in *.
      apply andb_true_iff in I as [I _]. apply negb_true_iff in I.
      rewrite (rewritten_no_trailing _ I), endsWith_append. reflexivity.
    - now rewrite incorrect_ignore in I. }
  split; [exact G|]. now apply normalize_correct.
Qed.

(** ** Navigation: [_navigate], [prefetch] and [goto] *)

Section NavigationProperties.

Context {URLSearchParams : Type} {P : Platform URLSearchParams}.

Local Abbreviation NavigationInfo := (@NavigationInfo URLSearchParams).
Local Abbreviation Effect := (@Effect URLSearchParams).
Local Abbreviation Browser := (@Browser URLSearchParams).
Local Abbreviation Promise := (@Promise URLSearchParams).
Local Abbreviation M := (@M URLSearchParams).

Lemma emitted_emitted (b : Browser) (l1 l2 : list Effect) :
  emitted (emitted b l1) l2 = emitted b (l1 ++ l2).
Proof. unfold emitted, with_trace. simpl. now rewrite app_assoc. Qed.

Lemma location_emitted (b : Browser) (l : list Effect) :
  location (emitted b l) = location b.
Proof. reflexivity. Qed.

(** What [parse] returns is made as the code makes it. *)
Lemma parse_some_inv (r : Router) (loc u : URL) (info : NavigationInfo) :
  parse r loc u = Normal (Some info) ->
  info_id info
  = info_path info ++ "?" ++ URLSearchParams_toString (info_query info)
  /\ info_routes info
     = filter (fun route => pattern route (info_path info)) (routes r)
  /\ info_query info = new_URLSearchParams (search u)
  /\ decodeURIComponent (stripped_pathname r u) = Some (info_path info)
  /\ owns r loc u = true.
Proof.
  unfold parse. destruct (owns r loc u); [|discriminate].
  destruct (decodeURIComponent _); [|discriminate].
  intros H. injection H as <-. now cbn.
Qed.

(** The only error [parse] throws is that of [decodeURIComponent]. *)
Lemma parse_throws_URIError (r : Router) (loc u : URL) (e : JSError) :
  parse r loc u = Throw e -> e = URIError.
Proof.
  unfold parse. destruct (owns r loc u); [|discriminate].
  destruct (decodeURIComponent _); [discriminate|]. now intros [= <-].
Qed.

(** The history API succeeds when the URL resolves inside the origin. *)
Lemma history_write_ok (push : bool) (state : HistoryState) (url : string)
  (u : URL) (b : Browser) :
  new_URL url (Some (baseURI b)) = Some u ->
  origin u = origin (location b) ->
  history_write push state url b =
  (Normal tt,
   emitted (store_entry push state u b)
     [if push then E_pushState state url else E_replaceState state url]).
Proof.
  unfold history_write. intros -> ->. now rewrite String.eqb_refl.
Qed.

(** A successful write leaves a trace and, for [replaceState], the
    length of the history as it was. *)
Lemma history_write_inv (push : bool) (state : HistoryState) (url : string)
  (b b1 : Browser) :
  history_write push state url b = (Normal tt, b1) ->
  exists u, new_URL url (Some (baseURI b)) = Some u
    /\ origin u = origin (location b)
    /\ b1 = emitted (store_entry push state u b)
              [if push then E_pushState state url
               else E_replaceState state url].
Proof.
  unfold history_write. destruct (new_URL _ _) as [u|]; [|discriminate].
  destruct (String.eqb_spec (origin u) (origin (location b))) as [E|];
    [|discriminate].
  unfold emit. intros H. injection H as <-. now exists u.
Qed.

Lemma replaceState_length (state : HistoryState) (url : string)
  (b b1 : Browser) :
  history_replaceState state url b = (Normal tt, b1) ->
  history_length b1 = history_length b
  /\ history_back b1 = history_back b
  /\ history_forward b1 = history_forward b
  /\ trace b1 = (trace b ++ [E_replaceState state url])%list.
Proof.
  intros H. apply history_write_inv in H as (u & _ & _ & ->).
  now cbn.
Qed.

(** [_navigate] by cases. *)
Lemma navigate_throw (r : Router) url scroll chain hash (b : Browser) e :
  parse r (location b) url = Throw e ->
  _navigate r url scroll chain hash b = (Rejected e, b).
Proof. unfold _navigate, async, bind, get, lift. now intros ->. Qed.

Lemma navigate_absent (r : Router) url scroll chain hash (b : Browser) :
  parse r (location b) url = Normal None ->
  _navigate r url scroll chain hash b = (Rejected not_owned_navigate, b).
Proof. unfold _navigate, async, bind, get, lift. now intros ->. Qed.

Lemma navigate_as_is (r : Router) url scroll chain hash (b : Browser) info :
  parse r (location b) url = Normal (Some info) ->
  info_path info = "/" \/ incorrect (trailing_slash r) (info_path info) = false ->
  _navigate r url scroll chain hash b =
  (Awaits (update_of_renderer scroll hash),
   emitted b [E_notify (info_path info) (info_query info);
              E_update info chain false]).
Proof.
  unfold _navigate, async, bind, get, lift. intros -> H.
  assert (E : (if negb (info_path info =? "/")
               then incorrect (trailing_slash r) (info_path info)
               else false) = false).
  { destruct H as [-> | ->]; [reflexivity | now destruct (negb _)]. }
  destruct (negb (info_path info =? "/")).
  - rewrite E. unfold ret, emit. now rewrite emitted_emitted.
  - unfold ret, emit. now rewrite emitted_emitted.
Qed.

Lemma navigate_rewrite (r : Router) url scroll chain hash (b : Browser) info :
  parse r (location b) url = Normal (Some info) ->
  info_path info <> "/" ->
  incorrect (trailing_slash r) (info_path info) = true ->
  _navigate r url scroll chain hash b =
  match history_replaceState empty_state
          (rewritten (info_path info) ++ search (location b)) b with
  | (Normal _, b1) =>
      (Awaits (update_of_renderer scroll hash),
       emitted b1
         [E_notify (rewritten (info_path info)) (info_query info);
          E_update (set_path info (rewritten (info_path info))) chain false])
  | (Throw e, b1) => (Rejected e, b1)
  end.
Proof.
  unfold _navigate, async, bind, get, lift. intros -> Hp ->.
  apply String.eqb_neq in Hp. rewrite Hp. cbn [negb set_path info_path].
  destruct (history_replaceState _ _ b) as [[[]|e] b1]; [|reflexivity].
  unfold ret, emit. cbn [info_query]. now rewrite emitted_emitted.
Qed.

(** The path handed to the renderer is the normalized one. *)
Lemma normalize_cases (ts : TrailingSlash) (path : string) :
  (normalize_trailing_slash ts path = path
   /\ (path = "/" \/ incorrect ts path = false))
  \/ (normalize_trailing_slash ts path = rewritten path
      /\ path <> "/" /\ incorrect ts path = true).
Proof.
  destruct (String.eqb_spec path "/") as [->|Hp]; [left; now split; [|left]|].
  destruct (incorrect ts path) eqn:I.
  - right. split; [now apply normalize_incorrect | now split].
  - left. split; [apply normalize_correct|]; now right.
Qed.

(** What [_navigate] hands to the renderer, when it gets that far: the
    path is the resolved path after the trailing-slash step, and a change of
    path comes with one [replaceState] in place. *)
Lemma set_path_same (info : NavigationInfo) :
  set_path info (info_path info) = info.
Proof. now destruct info. Qed.

Lemma navigate_hands_over (r : Router) url scroll chain hash (b b' : Browser)
  (info : NavigationInfo) (w : Awaited) :
  parse r (location b) url = Normal (Some info) ->
  _navigate r url scroll chain hash b = (Awaits w, b') ->
  let path := normalize_trailing_slash (trailing_slash r) (info_path info) in
  w = update_of_renderer scroll hash
  /\ exists b1,
       b' = emitted b1 [E_notify path (info_query info);
                        E_update (set_path info path) chain false]
       /\ ((path = info_path info /\ b1 = b)
           \/ (path <> info_path info
               /\ history_replaceState empty_state
                    (path ++ search (location b)) b = (Normal tt, b1))).
Proof.
  intros Hp Hn path. subst path.
  destruct (normalize_cases (trailing_slash r) (info_path info))
    as [[E H] | (E & Hroot & I)]; rewrite E.
  - rewrite (navigate_as_is r url scroll chain hash b info Hp H) in Hn.
    injection Hn as <- <-. split; [reflexivity|].
    exists b. rewrite set_path_same. split; [reflexivity | now left].
  - rewrite (navigate_rewrite r url scroll chain hash b info Hp Hroot I) in Hn.
    destruct (history_replaceState _ _ b) as [[[]|e] b1] eqn:W;
      [|discriminate].
    injection Hn as <- <-. split; [reflexivity|].
    exists b1. split; [reflexivity|]. right. split; [|reflexivity].
    intros H. apply (f_equal String.length) in H.
    now apply rewritten_length in H.
Qed.

(** A change of path rewrites the current history entry and adds none. *)
Lemma navigate_rewrites_in_place (r : Router) url scroll chain hash
  (b b' : Browser) (info : NavigationInfo) (w : Awaited) :
  parse r (location b) url = Normal (Some info) ->
  normalize_trailing_slash (trailing_slash r) (info_path info)
    <> info_path info ->
  _navigate r url scroll chain hash b = (Awaits w, b') ->
  history_length b' = history_length b
  /\ history_back b' = history_back b
  /\ history_forward b' = history_forward b
  /\ exists rest,
       trace b'
       = (trace b
          ++ E_replaceState empty_state
               (normalize_trailing_slash (trailing_slash r) (info_path info)
                ++ search (location b)) :: rest)%list
       /\ forall state u, ~ In (E_pushState state u) rest.
Proof.
  intros Hp Hne Hn.
  destruct (navigate_hands_over r url scroll chain hash b b' info w Hp Hn)
    as (_ & b1 & -> & [[E _] | [_ W]]); [congruence|].
  destruct (replaceState_length _ _ _ _ W) as (Hl & Hb & Hf & Ht).
  split; [exact Hl|]. split; [exact Hb|]. split; [exact Hf|].
  eexists. split.
  - cbn [trace emitted with_trace]. rewrite Ht, <- app_assoc. reflexivity.
  - intros state u [H | [H | []]]; discriminate.
Qed.

(** C3: the trailing-slash step of [_navigate] by policy.  Under [never] a
    path other than ['/'] that ends in a slash loses it; under [always] a
    path without a trailing slash gets one, unless its last segment holds a
    ['.'], in which case it stays as it is; under [ignore] every path stays
    as it is; ['/'] is never modified.  [_navigate] applies this step to
    the path [parse] resolved: when the step leaves the path as it is, or
    when the [history.replaceState] that goes with a change of path
    succeeds, [_navigate] gets to the renderer and passes the path so
    obtained to [renderer.notify] and [renderer.update]; when that
    [replaceState] throws, the promise is rejected with what it threw;
    and whenever [_navigate] gets to the renderer, it is with that path. *)
Theorem trailing_slash_policy (r : Router) (url : URL)
  (scroll : option ScrollPosition) (chain : list string)
  (hash : option string) (b : Browser) (info : NavigationInfo) :
  parse r (location b) url = Normal (Some info) ->
  (forall ts, normalize_trailing_slash ts "/" = "/")
  /\ (forall stem, stem <> "" ->
        normalize_trailing_slash never (stem ++ "/") = stem)
  /\ (forall path,
        endsWith path "/" = false ->
        includes (pop (split path "/"%char)) "." = false ->
        normalize_trailing_slash always path = path ++ "/")
  /\ (forall path,
        endsWith path "/" = false ->
        includes (pop (split path "/"%char)) "." = true ->
        normalize_trailing_slash always path = path)
  /\ (forall path, normalize_trailing_slash ignore path = path)
  /\ normalize_trailing_slash never "/about/" = "/about"
  /\ normalize_trailing_slash always "/about" = "/about/"
  /\ normalize_trailing_slash always "/file.json" = "/file.json"
  /\ (forall b1,
        (normalize_trailing_slash (trailing_slash r) (info_path info)
         = info_path info /\ b1 = b)
        \/ (normalize_trailing_slash (trailing_slash r) (info_path info)
            <> info_path info
            /\ history_replaceState empty_state
                 (normalize_trailing_slash (trailing_slash r) (info_path info)
                  ++ search (location b)) b = (Normal tt, b1)) ->
        _navigate r url scroll chain hash b
        = (Awaits (update_of_renderer scroll hash),
           emitted b1
             [E_notify
                (normalize_trailing_slash (trailing_slash r) (info_path info))
                (info_query info);
              E_update
                (set_path info
                   (normalize_trailing_slash (trailing_slash r)
                      (info_path info)))
                chain false]))
  /\ (forall e b1,
        normalize_trailing_slash (trailing_slash r) (info_path info)
        <> info_path info ->
        history_replaceState empty_state
          (normalize_trailing_slash (trailing_slash r) (info_path info)
           ++ search (location b)) b = (Throw e, b1) ->
        _navigate r url scroll chain hash b = (Rejected e, b1))
  /\ (forall (b' : Browser) (w : Awaited),
        _navigate r url scroll chain hash b = (Awaits w, b') ->
        exists before,
          trace b'
          = (before
             ++ [E_notify
                   (normalize_trailing_slash (trailing_slash r)
                      (info_path info))
                   (info_query info);
                 E_update
                   (set_path info
                      (normalize_trailing_slash (trailing_slash r)
                         (info_path info)))
                   chain false])%list).
Proof.
  intros Hp.
  split; [exact normalize_root|].
  split.
  { intros stem Hs. rewrite normalize_incorrect.
    - apply rewritten_trailing.
    - intros H. apply (f_equal String.length) in H.
      rewrite length_append in H. destruct stem; simpl in H; [congruence|lia].
    - rewrite incorrect_never. apply endsWith_append. }
  split.
  { intros path He Hd. rewrite normalize_incorrect.
    - now apply rewritten_no_trailing.
    - intros ->. discriminate.
    - now rewrite incorrect_always, He, Hd. }
  split.
  { intros path He Hd. apply normalize_correct. right.
    now rewrite incorrect_always, He, Hd. }
  split.
  { intros path. apply normalize_correct. right. apply incorrect_ignore. }
  split; [reflexivity|]. split; [reflexivity|]. split; [reflexivity|].
  assert (Hlen : rewritten (info_path info) <> info_path info).
  { intros H. apply (f_equal String.length) in H.
    now apply rewritten_length in H. }
  split.
  { intros b1 H.
    destruct (normalize_cases (trailing_slash r) (info_path info))
      as [[E C] | (E & Hroot & I)]; rewrite E in *.
    - destruct H as [[_ ->] | [H _]]; [|now elim H].
      rewrite set_path_same.
      exact (navigate_as_is r url scroll chain hash b info Hp C).
    - destruct H as [[H _] | [_ W]]; [now elim Hlen|].
      now rewrite (navigate_rewrite r url scroll chain hash b info Hp Hroot I),
        W. }
  split.
  { intros e b1 Hne W.
    destruct (normalize_cases (trailing_slash r) (info_path info))
      as [[E C] | (E & Hroot & I)]; rewrite E in *; [now elim Hne|].
    now rewrite (navigate_rewrite r url scroll chain hash b info Hp Hroot I),
      W. }
  intros b' w Hn.
  destruct (navigate_hands_over r url scroll chain hash b b' info w Hp Hn)
    as (_ & b1 & -> & _).
  exists (trace b1). reflexivity.
Qed.

(** C10: when the trailing-slash step rewrites [info.path], the other
    fields stay as [parse] made them: the [NavigationInfo] handed to
    [renderer.update] has the normalized path, while its id is still the
    path before normalization, ['?'] and the query (and so differs from
    the normalized path followed by ['?'] and the query), and its routes
    are those matched against the path before normalization. *)
Theorem navigate_keeps_id_and_routes (r : Router) (url : URL)
  (scroll : option ScrollPosition) (chain : list string)
  (hash : option string) (b b1 : Browser) (info : NavigationInfo) :
  parse r (location b) url = Normal (Some info) ->
  normalize_trailing_slash (trailing_slash r) (info_path info)
    <> info_path info ->
  history_replaceState empty_state
    (normalize_trailing_slash (trailing_slash r) (info_path info)
     ++ search (location b)) b = (Normal tt, b1) ->
  exists info',
    _navigate r url scroll chain hash b
    = (Awaits (update_of_renderer scroll hash),
       emitted b1 [E_notify (info_path info') (info_query info');
                   E_update info' chain false])
    /\ info_path info'
       = normalize_trailing_slash (trailing_slash r) (info_path info)
    /\ info_id info' = info_id info
    /\ info_id info'
       = info_path info ++ "?" ++ URLSearchParams_toString (info_query info)
    /\ info_id info'
       <> info_path info' ++ "?"
          ++ URLSearchParams_toString (info_query info')
    /\ info_routes info' = info_routes info
    /\ info_routes info'
       = filter (fun route => pattern route (info_path info)) (routes r)
    /\ info_query info' = info_query info.
Proof.
  intros Hp Hn Hw.
  destruct (normalize_cases (trailing_slash r) (info_path info))
    as [[E _] | (E & Hroot & I)]; [congruence|].
  rewrite E in *.
  exists (set_path info (rewritten (info_path info))).
  rewrite (navigate_rewrite r url scroll chain hash b info Hp Hroot I), Hw.
  destruct (parse_some_inv _ _ _ _ Hp) as (Hid & Hr & _).
  cbn [set_path info_path info_id info_routes info_query].
  repeat split; try assumption.
  rewrite Hid. intros H. apply append_inv_tail in H. congruence.
Qed.

(** C6 (as amended): [_navigate] and [prefetch] each reject with their
    "does not belong to this app" error if and only if [parse(url)] is
    absent, which is the case exactly when the URL is not owned; when
    [parse] itself throws (an owned URL whose path does not decode) both
    reject with that error and call nothing; when [parse] returns a
    [NavigationInfo], [prefetch] calls [renderer.load] with it, touches
    nothing else and returns the promise of that call; when the URL is
    owned, neither rejects with its "does not belong" error. *)
Theorem ownership_error_iff_absent (r : Router) (url : URL)
  (scroll : option ScrollPosition) (chain : list string)
  (hash : option string) (b : Browser) :
  (fst (_navigate r url scroll chain hash b) = Rejected not_owned_navigate
   <-> parse r (location b) url = Normal None)
  /\ (fst (prefetch r url b) = Rejected not_owned_prefetch
      <-> parse r (location b) url = Normal None)
  /\ (parse r (location b) url = Normal None
      <-> owns r (location b) url = false)
  /\ (forall e, parse r (location b) url = Throw e ->
        _navigate r url scroll chain hash b = (Rejected e, b)
        /\ prefetch r url b = (Rejected e, b))
  /\ (forall info, parse r (location b) url = Normal (Some info) ->
        prefetch r url b
        = (Awaits (load_of_renderer info), emitted b [E_load info]))
  /\ (owns r (location b) url = true ->
      fst (_navigate r url scroll chain hash b) <> Rejected not_owned_navigate
      /\ fst (prefetch r url b) <> Rejected not_owned_prefetch).
Proof.
  assert (Hown : parse r (location b) url = Normal None
                 <-> owns r (location b) url = false).
  { split; [|apply parse_not_owned].
    intros H. destruct (owns r (location b) url) eqn:O; [|reflexivity].
    unfold parse in H. rewrite O in H.
    destruct (decodeURIComponent _); discriminate. }
  assert (Hpre : forall c, parse r (location b) url = c ->
    prefetch r url b =
    match c with
    | Throw e => (Rejected e, b)
    | Normal None => (Rejected not_owned_prefetch, b)
    | Normal (Some info) =>
        (Awaits (load_of_renderer info), emitted b [E_load info])
    end).
  { intros c Hc. unfold prefetch, async, bind, get, lift. rewrite Hc.
    now destruct c as [[info|]|e]. }
  assert (Hnav : fst (_navigate r url scroll chain hash b)
                 = Rejected not_owned_navigate
                 <-> parse r (location b) url = Normal None).
  { destruct (parse r (location b) url) as [[info|]|e] eqn:Hp.
    - destruct (normalize_cases (trailing_slash r) (info_path info))
        as [[_ H] | (_ & Hroot & I)].
      + rewrite (navigate_as_is r url scroll chain hash b info Hp H).
        split; discriminate.
      + rewrite (navigate_rewrite r url scroll chain hash b info Hp Hroot I).
        destruct (history_replaceState _ _ b) as [[[]|e] b1] eqn:W;
          [split; discriminate|].
        unfold history_replaceState, history_write in W.
        destruct (new_URL _ _) as [u|].
        * destruct (origin u =? origin (location b)).
          -- unfold emit in W. discriminate.
          -- injection W as <- <-. split; discriminate.
        * injection W as <- <-. split; discriminate.
    - rewrite (navigate_absent r url scroll chain hash b Hp). now split.
    - rewrite (navigate_throw r url scroll chain hash b e Hp).
      rewrite (parse_throws_URIError _ _ _ _ Hp). split; discriminate. }
  assert (Hpf : fst (prefetch r url b) = Rejected not_owned_prefetch
                <-> parse r (location b) url = Normal None).
  { rewrite (Hpre _ eq_refl).
    destruct (parse r (location b) url) as [[info|]|e] eqn:Hp; cbn.
    - split; discriminate.
    - now split.
    - rewrite (parse_throws_URIError _ _ _ _ Hp). split; discriminate. }
  split; [exact Hnav|]. split; [exact Hpf|]. split; [exact Hown|].
  split.
  { intros e Hp. split; [now apply navigate_throw|].
    now rewrite (Hpre _ Hp). }
  split.
  { intros info Hp. now rewrite (Hpre _ Hp). }
  intros O. rewrite Hnav, Hpf, Hown, O. split; discriminate.
Qed.

End NavigationProperties.

(** ** Programmatic navigation and the listeners *)

Section ListenerProperties.

Context {URLSearchParams : Type} {P : Platform URLSearchParams}.

Local Abbreviation NavigationInfo := (@NavigationInfo URLSearchParams).
Local Abbreviation Effect := (@Effect URLSearchParams).
Local Abbreviation Browser := (@Browser URLSearchParams).
Local Abbreviation Promise := (@Promise URLSearchParams).
Local Abbreviation M := (@M URLSearchParams).

(** C7: [goto(href, opts, chain)], once [href] is resolved.  With the
    router enabled and the URL owned, history is written with
    [replaceState] if [opts.replaceState] is set and with [pushState]
    otherwise (the argument being [href] as given), and the promise and
    effects are then those of [_navigate].  With the router disabled or
    the URL not owned, the only effect is the assignment of the URL to
    [location.href], and the promise returned never settles. *)
Theorem goto_spec (r : Router) (href_string : string) (opts : GotoOptions)
  (chain : list string) (b : Browser) (url : URL) :
  new_URL href_string (Some (get_base_uri b)) = Some url ->
  (enabled r = true -> owns r (location b) url = true ->
   exists b1,
     (if replaceState opts
      then history_replaceState empty_state href_string
      else history_pushState empty_state href_string) b = (Normal tt, b1)
     /\ trace b1
        = (trace b ++ [if replaceState opts
                       then E_replaceState empty_state href_string
                       else E_pushState empty_state href_string])%list
     /\ location b1 = url
     /\ history_length b1
        = (if replaceState opts then history_length b
           else List.length (history_back b) + 2)
     /\ goto r href_string opts chain b
        = _navigate r url
            (if noscroll opts then Some (scroll_state b1) else None)
            chain (Some (hash url)) b1)
  /\ (enabled r = false \/ owns r (location b) url = false ->
      goto r href_string opts chain b
      = (NeverSettles, emitted b [E_location_href (href url)])).
Proof.
  intros Hu. split.
  - intros He Ho.
    assert (Horigin : origin url = origin (location b)).
    { apply owns_true in Ho. tauto. }
    exists (emitted (store_entry (negb (replaceState opts)) empty_state url b)
              [if replaceState opts
               then E_replaceState empty_state href_string
               else E_pushState empty_state href_string]).
    assert (W : (if replaceState opts
                 then history_replaceState empty_state href_string
                 else history_pushState empty_state href_string) b
                = (Normal tt,
                   emitted (store_entry (negb (replaceState opts))
                              empty_state url b)
                     [if replaceState opts
                      then E_replaceState empty_state href_string
                      else E_pushState empty_state href_string])).
    { unfold history_replaceState, history_pushState.
      destruct (replaceState opts);
        now rewrite (history_write_ok _ _ _ url b Hu Horigin). }
    split; [exact W|]. split; [now destruct (replaceState opts)|].
    split; [now destruct (replaceState opts)|].
    split.
    { unfold history_length. destruct (replaceState opts); cbn; lia. }
    unfold goto, async, bind, get. rewrite Hu, He, Ho. cbn [andb].
    rewrite W. unfold call.
    now destruct (_navigate r url _ chain (Some (hash url)) _).
  - intros H. unfold goto, async, bind, get. rewrite Hu.
    assert (E : enabled r && owns r (location b) url = false).
    { destruct H as [-> | ->]; [reflexivity | apply andb_false_r]. }
    now rewrite E.
Qed.

(** The listener does nothing while the router is disabled, or on an
    event it does not accept. *)
Lemma on_click_disabled (r : Router) (event : MouseEvent) (b : Browser) :
  enabled r = false -> on_click r event b = (Normal tt, b).
Proof. unfold on_click. now intros ->. Qed.

Lemma on_click_not_accepted (r : Router) (event : MouseEvent) (b : Browser) :
  accepts event = false -> on_click r event b = (Normal tt, b).
Proof.
  unfold on_click, accepts. intros H.
  destruct (enabled r); [|reflexivity]. cbn [negb].
  destruct (button event =? 0)%Z; [|reflexivity].
  destruct (which event =? 1)%Z; [|reflexivity]. cbn [negb orb andb] in *.
  destruct (metaKey event || ctrlKey event || shiftKey event || altKey event);
    [reflexivity|].
  cbn [negb andb] in H. apply negb_false_iff in H. now rewrite H.
Qed.

(** An accepted click on an anchor with an href reaches the comparison
    with [location.href]. *)
Lemma on_click_accepted (r : Router) (event : MouseEvent) (a : Node)
  (href_string : string) (b : Browser) :
  enabled r = true -> accepts event = true ->
  find_anchor (event_target event) = Some a ->
  anchor_href a = Some href_string ->
  on_click r event b =
  (if href_string =? href (location b) then
     (if negb (truthy (hash (location b))) then preventDefault else ret tt)
   else
     if hasAttribute a "download" || rel_external a then ret tt else
     (target_value <- lift (anchor_target a) ;;
      if IDL_truthy target_value then ret tt else
      match new_URL href_string None with
      | None => throw TypeError
      | Some url =>
          if negb (owns r (location b) url) then ret tt else
          history_pushState empty_state (href url) ;;
          b <- get ;;
          call (_navigate r url
                  (if hasAttribute a "sveltekit:noscroll"
                   then Some (scroll_state b) else None)
                  [] (Some (hash url))) ;;
          preventDefault
      end)%js) b.
Proof.
  unfold on_click, accepts, anchor_href. intros -> Ha -> Hh.
  apply andb_true_iff in Ha as [Ha Hd].
  apply andb_true_iff in Ha as [Ha Hm].
  apply andb_true_iff in Ha as [Hb Hw].
  rewrite Hb, Hw. cbn [negb orb].
  apply negb_true_iff in Hm, Hd. rewrite Hm, Hd.
  unfold anchor_target, rel_external.
  destruct (DOM.href a) as [|s|s] eqn:Ehref; [discriminate| |].
  - destruct (truthy s) eqn:Ts; [|discriminate]. injection Hh as ->.
    cbn [IDL_truthy negb is_SVGAnimatedString]. rewrite Ts. reflexivity.
  - injection Hh as ->. reflexivity.
Qed.

(** C5 (as amended): for a click the handler accepts (router enabled,
    primary button, no modifier, not default-prevented, on an anchor with
    an href).  If the href equals [location.href], hash included,
    [preventDefault] is called exactly when the location has no hash, and
    nothing else happens: no history write, no [_navigate]; so a click on
    a link to the current URL with its current hash does nothing at all.
    Every other href, one that differs from the location in its hash
    only included, on an anchor without [download], without
    [rel=external] and without target, whose URL is owned, makes the
    handler push the URL, then run [_navigate] on it with the hash, then
    call [preventDefault]. *)
Theorem click_on_anchor (r : Router) (event : MouseEvent) (a : Node)
  (href_string : string) (b : Browser) :
  enabled r = true -> accepts event = true ->
  find_anchor (event_target event) = Some a ->
  anchor_href a = Some href_string ->
  (href_string = href (location b) ->
   on_click r event b
   = (Normal tt,
      if truthy (hash (location b)) then b
      else emitted b [E_preventDefault]))
  /\ (href_string <> href (location b) ->
      forall (url : URL) (target_value : IDLValue),
        hasAttribute a "download" = false ->
        rel_external a = false ->
        anchor_target a = Normal target_value ->
        IDL_truthy target_value = false ->
        new_URL href_string None = Some url ->
        owns r (location b) url = true ->
        new_URL (href url) (Some (baseURI b)) = Some url ->
        exists (b1 : Browser) (p : Promise) (b2 : Browser),
          history_pushState empty_state (href url) b = (Normal tt, b1)
          /\ trace b1
             = (trace b ++ [E_pushState empty_state (href url)])%list
          /\ location b1 = url
          /\ history_back b1 = history_entry b :: history_back b
          /\ _navigate r url
               (if hasAttribute a "sveltekit:noscroll"
                then Some (scroll_state b1) else None)
               [] (Some (hash url)) b1 = (p, b2)
          /\ on_click r event b
             = (Normal tt, emitted b2 [E_preventDefault])).
Proof.
  intros He Ha Hf Hh.
  rewrite (on_click_accepted r event a href_string b He Ha Hf Hh).
  split.
  - intros ->. rewrite String.eqb_refl.
    now destruct (truthy (hash (location b))).
  - intros Hne url tv Hd Hrel Ht Htv Hu Ho Hround.
    apply String.eqb_neq in Hne. rewrite Hne, Hd, Hrel. cbn [orb].
    unfold bind at 1, lift at 1. rewrite Ht, Htv, Hu, Ho. cbn [negb].
    assert (Horigin : origin url = origin (location b)).
    { apply owns_true in Ho. tauto. }
    pose proof (history_write_ok true empty_state (href url) url b
                  Hround Horigin) as W.
    fold history_pushState in W.
    set (b1 := emitted (store_entry true empty_state url b)
                 [E_pushState empty_state (href url)]) in *.
    destruct (_navigate r url
                (if hasAttribute a "sveltekit:noscroll"
                 then Some (scroll_state b1) else None)
                [] (Some (hash url)) b1) as [p b2] eqn:N.
    exists b1, p, b2.
    split; [exact W|]. split; [reflexivity|]. split; [reflexivity|].
    split; [reflexivity|]. split; [exact N|].
    unfold bind at 1. rewrite W.
    unfold bind at 1, get at 1. unfold bind at 1, call at 1.
    now rewrite N.
Qed.

(** The listeners under a list of registrations, while disabled. *)
Lemma run_listeners_click_disabled (r : Router) (event : MouseEvent)
  (ls : list EventType) (b : Browser) :
  enabled r = false -> run_listeners r (Ev_click event) ls b = ([], b).
Proof.
  intros He. induction ls as [|l ls IH]; [reflexivity|].
  cbn [run_listeners event_type listener].
  destruct (EventType_eqb l click); [|exact IH].
  now rewrite (on_click_disabled r event b He).
Qed.

Lemma on_popstate_disabled (r : Router) (state : option HistoryState)
  (b : Browser) :
  enabled r = false -> on_popstate r state b = (Normal tt, b).
Proof. unfold on_popstate. intros ->. now destruct state. Qed.

Lemma run_listeners_popstate_disabled (r : Router)
  (state : option HistoryState) (ls : list EventType) (b : Browser) :
  enabled r = false -> run_listeners r (Ev_popstate state) ls b = ([], b).
Proof.
  intros He. induction ls as [|l ls IH]; [reflexivity|].
  cbn [run_listeners event_type listener].
  destruct (EventType_eqb l popstate); [|exact IH].
  now rewrite (on_popstate_disabled r state b He).
Qed.

Lemma run_listeners_unguarded (r : Router) (v : bool) (ev : Event)
  (ls : list EventType) (b : Browser) :
  unguarded ev = true ->
  run_listeners (set_enabled r v) ev ls b = run_listeners r ev ls b.
Proof.
  intros Hu. revert b. induction ls as [|l ls IH]; intros b; [reflexivity|].
  cbn [run_listeners].
  assert (E : listener (set_enabled r v) ev b = listener r ev b)
    by (destruct ev; try discriminate; reflexivity).
  rewrite E. destruct (EventType_eqb l (event_type ev)); [|apply IH].
  destruct (listener r ev b) as [[[]|e] b']; now rewrite IH.
Qed.

(** C8 (as amended): while the router is disabled, the [click] and
    [popstate] listeners do nothing: no navigation, no history write, no
    call on the renderer, whatever the event.  The other listeners do not
    read the flag: touch and hover prefetch, and the scroll tracking,
    run the same whether the router is enabled or not.  [disable()]
    removes no listener: after [enable()] every event is handled as if
    [disable()] had not been called. *)
Theorem disabled_router_listeners (r : Router) (b : Browser) :
  enabled r = false ->
  (forall event, dispatch r (Ev_click event) b = ([], b))
  /\ (forall state, dispatch r (Ev_popstate state) b = ([], b))
  /\ (forall ev, unguarded ev = true ->
        dispatch r ev b = dispatch (enable r) ev b)
  /\ mousemove_timeout_fires r b = mousemove_timeout_fires (enable r) b
  /\ (forall ev, dispatch (enable (disable r)) ev b
                 = dispatch (enable r) ev b).
Proof.
  intros He. unfold dispatch.
  split; [intros; now apply run_listeners_click_disabled|].
  split; [intros; now apply run_listeners_popstate_disabled|].
  split.
  { intros ev Hu. unfold enable.
    now rewrite run_listeners_unguarded. }
  split; [reflexivity|].
  intros ev. reflexivity.
Qed.

End ListenerProperties.

(** ** Runs on the sample platform *)

(** A closed equation between two runs is settled by evaluation. *)
Ltac run := vm_compute; reflexivity.

(** An owned URL for which [parse] returns nothing: the path ['/%'] does
    not decode. *)
Lemma parse_owned_lone_percent :
  ~ ((exists info,
        parse Sample.root_router Sample.home Sample.lone_percent
        = Normal (Some info))
     <-> (origin Sample.lone_percent = origin Sample.home
          /\ startsWith (pathname Sample.lone_percent)
               (base Sample.root_router) = true)).
Proof.
  intros [_ H]. destruct H as [info H]; [split; run|].
  vm_compute in H. discriminate H.
Qed.

(** The same URL is owned and [parse] makes no [NavigationInfo] of it. *)
Lemma parse_lone_percent_no_info :
  origin Sample.lone_percent = origin Sample.home
  /\ startsWith (pathname Sample.lone_percent) (base Sample.root_router) = true
  /\ ~ (exists info,
          parse Sample.root_router Sample.home Sample.lone_percent
          = Normal (Some info)).
Proof.
  split; [run|]. split; [run|].
  intros [info H]. vm_compute in H. discriminate H.
Qed.

Lemma parse_path_and_id_witness :
  exists info,
    parse Sample.app_router Sample.docs_slash Sample.spaced
    = Normal (Some info)
    /\ info_path info = "/a b/"
    /\ info_id info
       = "/a b/" ++ "?" ++ URLSearchParams_toString (info_query info).
Proof.
  assert (Ho : origin Sample.spaced = origin Sample.docs_slash) by run.
  assert (Hb : startsWith (pathname Sample.spaced) (base Sample.app_router)
               = true) by run.
  assert (Hd : decodeURIComponent
                 (stripped_pathname Sample.app_router Sample.spaced)
               = Some "/a b/") by run.
  destruct (parse_path_and_id Sample.app_router Sample.docs_slash
              Sample.spaced "/a b/" Ho Hb Hd)
    as (_ & _ & _ & info & Hp & Hpath & _ & Hid & _).
  exists info. split; [exact Hp|]. split; [exact Hpath | exact Hid].
Defined.

(** Under [never], normalizing ['/about//'] twice is not normalizing it
    once. *)
Lemma normalize_never_twice :
  normalize_trailing_slash never (normalize_trailing_slash never "/about//")
  <> normalize_trailing_slash never "/about//".
Proof. vm_compute. discriminate. Qed.

Lemma normalize_idempotent_witness :
  normalize_trailing_slash never (normalize_trailing_slash never "/about/")
  = normalize_trailing_slash never "/about/".
Proof.
  assert (H : never = never -> endsWith "/about/" "//" = false)
    by (intros _; run).
  exact (proj2 (normalize_idempotent never "/about/" H)).
Defined.

(** C4 (the code at a failing input): with base ['/app'] and policy
    [never], navigating to [/app/docs/?x=1] rewrites the history entry in
    place, but to ['/docs?x=1']: the address becomes
    [http://localhost/docs?x=1], outside the base of the application,
    instead of [http://localhost/app/docs?x=1]. *)
Theorem navigate_rewrite_drops_base :
  trace Sample.docs_navigated
  = [E_replaceState empty_state "http://localhost/app/docs/?x=1";
     E_replaceState empty_state "/docs?x=1";
     E_notify "/docs" [("x", "1")];
     E_update (set_path Sample.docs_info "/docs") [] false]
  /\ href (location Sample.docs_navigated) = "http://localhost/docs?x=1"
  /\ owns Sample.app_router (location Sample.docs_navigated)
       (location Sample.docs_navigated) = false
  /\ history_length Sample.docs_navigated
     = history_length (Sample.started Sample.app_router Sample.docs_slash).
Proof. split; [run|]. split; [run|]. split; run. Qed.

(** C3 on the sample application: under [never], [_navigate] to
    [/app/docs/?x=1] hands ['/docs'] to the renderer. *)
Lemma trailing_slash_policy_witness :
  _navigate Sample.app_router Sample.docs_slash None [] None
    (Sample.started Sample.app_router Sample.docs_slash)
  = (Awaits (update_of_renderer None None),
     emitted
       (snd (history_replaceState empty_state "/docs?x=1"
               (Sample.started Sample.app_router Sample.docs_slash)))
       [E_notify "/docs" (info_query Sample.docs_info);
        E_update (set_path Sample.docs_info "/docs") [] false]).
Proof.
  pose (b := Sample.started Sample.app_router Sample.docs_slash).
  assert (Hp : parse Sample.app_router (location b) Sample.docs_slash
               = Normal (Some Sample.docs_info)) by run.
  assert (E : normalize_trailing_slash (trailing_slash Sample.app_router)
                (info_path Sample.docs_info) = "/docs") by run.
  assert (N : "/docs" <> info_path Sample.docs_info)
    by (vm_compute; discriminate).
  assert (Hw : history_replaceState empty_state
                 ("/docs" ++ search (location b)) b
               = (Normal tt,
                  snd (history_replaceState empty_state "/docs?x=1" b)))
    by run.
  destruct (trailing_slash_policy Sample.app_router Sample.docs_slash
              None [] None b Sample.docs_info Hp)
    as (_ & _ & _ & _ & _ & _ & _ & _ & Hnav & _).
  rewrite E in Hnav.
  exact (Hnav (snd (history_replaceState empty_state "/docs?x=1" b))
           (or_intror (conj N Hw))).
Defined.

Lemma navigate_keeps_id_and_routes_witness :
  exists info',
    _navigate Sample.app_router Sample.docs_slash None [] None
      (Sample.started Sample.app_router Sample.docs_slash)
    = (Awaits (update_of_renderer None None),
       emitted
         (snd (history_replaceState empty_state "/docs?x=1"
                 (Sample.started Sample.app_router Sample.docs_slash)))
         [E_notify (info_path info') (info_query info');
          E_update info' [] false])
    /\ info_path info' = "/docs"
    /\ info_id info' = "/docs/?x=1".
Proof.
  assert (N : normalize_trailing_slash (trailing_slash Sample.app_router)
                (info_path Sample.docs_info)
              <> info_path Sample.docs_info)
    by (vm_compute; discriminate).
  assert (Hp : parse Sample.app_router
                 (location (Sample.started Sample.app_router Sample.docs_slash))
                 Sample.docs_slash = Normal (Some Sample.docs_info)) by run.
  assert (Hw : history_replaceState empty_state
                 (normalize_trailing_slash (trailing_slash Sample.app_router)
                    (info_path Sample.docs_info)
                  ++ search (location (Sample.started Sample.app_router
                                         Sample.docs_slash)))
                 (Sample.started Sample.app_router Sample.docs_slash)
               = (Normal tt,
                  snd (history_replaceState empty_state "/docs?x=1"
                         (Sample.started Sample.app_router
                            Sample.docs_slash)))) by run.
  destruct (navigate_keeps_id_and_routes Sample.app_router Sample.docs_slash
              None [] None
              (Sample.started Sample.app_router Sample.docs_slash)
              (snd (history_replaceState empty_state "/docs?x=1"
                      (Sample.started Sample.app_router Sample.docs_slash)))
              Sample.docs_info Hp N Hw)
    as (info' & Hnav & Hpath & Hid & _).
  exists info'. split; [exact Hnav|]. split; [exact Hpath | exact Hid].
Defined.

(** An owned URL on which [prefetch] throws although [parse] is not
    absent, and on which it does not reach [renderer.load]. *)
Lemma prefetch_lone_percent_rejects :
  owns Sample.root_router (location (Sample.page Sample.home))
    Sample.lone_percent = true
  /\ prefetch Sample.root_router Sample.lone_percent (Sample.page Sample.home)
     = (Rejected URIError, Sample.page Sample.home)
  /\ ~ ((exists e,
          fst (prefetch Sample.root_router Sample.lone_percent
                 (Sample.page Sample.home)) = Rejected e)
       <-> parse Sample.root_router (location (Sample.page Sample.home))
             Sample.lone_percent = Normal None).
Proof.
  split; [run|]. split; [run|].
  intros [H _]. assert (A : parse Sample.root_router
    (location (Sample.page Sample.home)) Sample.lone_percent = Normal None).
  { apply H. exists URIError. run. }
  vm_compute in A. discriminate A.
Qed.

Lemma goto_spec_witness :
  goto Sample.root_router "https://example.com/x" default_options []
    (Sample.started Sample.root_router Sample.home)
  = (NeverSettles,
     emitted (Sample.started Sample.root_router Sample.home)
       [E_location_href "https://example.com/x"])
  /\ exists b1,
       trace b1
       = [E_replaceState empty_state "http://localhost/";
          E_pushState empty_state "/contact"]
       /\ goto Sample.root_router "/contact" default_options []
            (Sample.started Sample.root_router Sample.home)
          = _navigate Sample.root_router Sample.contact None []
              (Some "") b1.
Proof.
  split.
  - assert (Hu : new_URL "https://example.com/x"
                   (Some (get_base_uri
                            (Sample.started Sample.root_router Sample.home)))
                 = Some (Sample.mkURL "https://example.com" "/x" "" ""))
      by run.
    assert (Hn : owns Sample.root_router
                   (location (Sample.started Sample.root_router Sample.home))
                   (Sample.mkURL "https://example.com" "/x" "" "") = false)
      by run.
    rewrite (proj2 (goto_spec Sample.root_router "https://example.com/x"
                      default_options []
                      (Sample.started Sample.root_router Sample.home)
                      (Sample.mkURL "https://example.com" "/x" "" "") Hu)
               (or_intror Hn)).
    run.
  - assert (Hu : new_URL "/contact"
                   (Some (get_base_uri
                            (Sample.started Sample.root_router Sample.home)))
                 = Some Sample.contact) by run.
    assert (He : enabled Sample.root_router = true) by run.
    assert (Ho : owns Sample.root_router
                   (location (Sample.started Sample.root_router Sample.home))
                   Sample.contact = true) by run.
    destruct (proj1 (goto_spec Sample.root_router "/contact"
                       default_options []
                       (Sample.started Sample.root_router Sample.home)
                       Sample.contact Hu) He Ho)
      as (b1 & _ & Ht & _ & _ & Hg).
    exists b1. split; [rewrite Ht; run | exact Hg].
Defined.

(** A click on [<a href="#section">] on a page without hash: the href is
    the current URL plus the hash, and the handler pushes it, runs
    [_navigate] and calls [preventDefault]. *)
Lemma click_hash_link_navigates :
  IDL_String (DOM.href Sample.hash_link)
  = href (location (Sample.started Sample.root_router Sample.a_page))
    ++ "#section"
  /\ trace Sample.hash_clicked
     = [E_replaceState empty_state "http://localhost/page";
        E_pushState empty_state "http://localhost/page#section";
        E_notify "/page" [];
        E_update {| info_id := "/page?"; info_routes := [];
                    info_path := "/page"; info_query := [] |} [] false;
        E_preventDefault]
  /\ ~ (~ In E_preventDefault (trace Sample.hash_clicked)
        /\ forall info chain no_scroll,
             ~ In (E_update info chain no_scroll) (trace Sample.hash_clicked)).
Proof.
  split; [run|]. split; [run|].
  intros [H _]. apply H. vm_compute. tauto.
Qed.

Lemma click_on_anchor_witness :
  exists b2,
    on_click Sample.root_router (Sample.on_node (Sample.inside Sample.contact_link))
      (Sample.started Sample.root_router Sample.a_page)
    = (Normal tt, emitted b2 [E_preventDefault])
  /\ on_click Sample.root_router (Sample.on_node (Sample.inside Sample.hash_link))
       (Sample.started Sample.root_router (Sample.localhost "/page" "" "#section"))
     = (Normal tt,
        Sample.started Sample.root_router (Sample.localhost "/page" "" "#section")).
Proof.
  pose (r := Sample.root_router).
  pose (b := Sample.started r Sample.a_page).
  pose (ev := Sample.on_node (Sample.inside Sample.contact_link)).
  assert (He : enabled r = true) by run.
  assert (Ha : accepts ev = true) by run.
  assert (Hf : find_anchor (event_target ev) = Some Sample.contact_link)
    by run.
  assert (Hh : anchor_href Sample.contact_link
               = Some "http://localhost/contact") by run.
  assert (Hne : "http://localhost/contact" <> href (location b))
    by (vm_compute; discriminate).
  assert (Hd : hasAttribute Sample.contact_link "download" = false) by run.
  assert (Hr : rel_external Sample.contact_link = false) by run.
  assert (Ht : anchor_target Sample.contact_link = Normal (Str "")) by run.
  assert (Htv : IDL_truthy (Str "") = false) by run.
  assert (Hu : new_URL "http://localhost/contact" None = Some Sample.contact)
    by run.
  assert (Ho : owns r (location b) Sample.contact = true) by run.
  assert (Hround : new_URL (href Sample.contact) (Some (baseURI b))
                   = Some Sample.contact) by run.
  destruct (proj2 (click_on_anchor r ev Sample.contact_link
                     "http://localhost/contact" b He Ha Hf Hh)
              Hne Sample.contact (Str "") Hd Hr Ht Htv Hu Ho Hround)
    as (b1 & p & b2 & _ & _ & _ & _ & _ & Hc).
  exists b2. split; [exact Hc|].
  pose (b' := Sample.started r (Sample.localhost "/page" "" "#section")).
  pose (ev' := Sample.on_node (Sample.inside Sample.hash_link)).
  assert (Ha' : accepts ev' = true) by run.
  assert (Hf' : find_anchor (event_target ev') = Some Sample.hash_link)
    by run.
  assert (Hh' : anchor_href Sample.hash_link
                = Some "http://localhost/page#section") by run.
  assert (Heq : "http://localhost/page#section" = href (location b')) by run.
  rewrite (proj1 (click_on_anchor r ev' Sample.hash_link
                    "http://localhost/page#section" b' He Ha' Hf' Hh') Heq).
  run.
Defined.

(** With the router disabled, a touch on a link marked for prefetching
    still calls [renderer.load], and a scroll still ends in a
    [replaceState]. *)
Lemma disabled_touch_prefetches :
  enabled (disable Sample.root_router) = false
  /\ trace (snd (dispatch (disable Sample.root_router)
                   (Ev_touchstart (Sample.on_node
                                     (Sample.inside Sample.prefetch_link)))
                   (Sample.started Sample.root_router Sample.home)))
     = (trace (Sample.started Sample.root_router Sample.home)
        ++ [E_load Sample.contact_info])%list
  /\ trace (snd (scroll_timer_fires
                   (snd (dispatch (disable Sample.root_router) Ev_scroll
                           (Sample.started Sample.root_router Sample.home)))))
     = (trace (Sample.started Sample.root_router Sample.home)
        ++ [E_replaceState
              {| sveltekit_scroll := Some {| scroll_x := 0; scroll_y := 0 |} |}
              "http://localhost/"])%list.
Proof. split; [run|]. split; run. Qed.

Lemma disabled_router_listeners_witness :
  dispatch (disable Sample.root_router)
    (Ev_click (Sample.on_node (Sample.inside Sample.contact_link)))
    (Sample.started Sample.root_router Sample.a_page)
  = ([], Sample.started Sample.root_router Sample.a_page).
Proof.
  assert (He : enabled (disable Sample.root_router) = false) by run.
  exact (proj1 (disabled_router_listeners (disable Sample.root_router)
                  (Sample.started Sample.root_router Sample.a_page) He)
           (Sample.on_node (Sample.inside Sample.contact_link))).
Defined.

(** After the click on the hash link, once [renderer.update] is done,
    [_navigate] focuses the body and scrolls to the element the hash
    names. *)
Example hash_click_resumed :
  fst (_navigate Sample.root_router
         (Sample.localhost "/page" "" "#section") None []
         (Some "#section")
         (snd (history_pushState empty_state "http://localhost/page#section"
                 (Sample.started Sample.root_router Sample.a_page))))
  = Awaits (update_of_renderer None (Some "#section"))
  /\ skipn 5 (trace (snd (_navigate_resume None (Some "#section")
                            Sample.hash_clicked)))
     = [E_focus; E_scrollTo 0 400].
Proof. split; run. Qed.

(** [init] installs the seven listeners and replaces the current history
    entry: the history is as long as before. *)
Example init_replaces_entry :
  listeners (Sample.started Sample.root_router Sample.home)
  = [beforeunload; load; scroll; touchstart; mousemove; click; popstate]
  /\ history_length (Sample.started Sample.root_router Sample.home)
     = history_length (Sample.page Sample.home)
  /\ enabled (fst (init (constructor "" [] ignore))) = true
  /\ enabled (constructor "" [] ignore) = false.
Proof. repeat split; run. Qed.

(** * Further properties of the router *)

(** ** [find_anchor] *)

Lemma Node_parent_ind (Q : Node -> Prop) :
  (forall name h t attrs, Q (DOM.mkNode name h t attrs None)) ->
  (forall name h t attrs p, Q p -> Q (DOM.mkNode name h t attrs (Some p))) ->
  forall n, Q n.
Proof.
  intros H0 H1. fix IH 1.
  intros [name h t attrs [p|]]; [apply H1, IH | apply H0].
Qed.

Lemma upper_ascii_A (c : ascii) :
  upper_ascii c = "A"%char <-> c = "A"%char \/ c = "a"%char.
Proof.
  split.
  - destruct c as [[] [] [] [] [] [] [] []]; vm_compute; intros H;
      try discriminate H; tauto.
  - intros [-> | ->]; reflexivity.
Qed.

Lemma toUpperCase_A (s : string) :
  toUpperCase s = "A" <-> s = "A" \/ s = "a".
Proof.
  destruct s as [|c [|d s]]; cbn [toUpperCase].
  - split; [discriminate | intros [H | H]; discriminate].
  - split.
    + intros H. injection H as H. apply upper_ascii_A in H as [-> | ->]; tauto.
    + intros [H | H]; injection H as ->; reflexivity.
  - split; [discriminate | intros [H | H]; discriminate].
Qed.

Lemma find_anchor_from_find (n : Node) :
  find_anchor_from n = List.find is_anchor (ancestors n).
Proof.
  induction n as [name h t attrs | name h t attrs p IH] using Node_parent_ind;
    cbn [find_anchor_from ancestors List.find]; unfold is_anchor at 1;
    cbn [DOM.nodeName];
    destruct (toUpperCase name =? "A"); cbn [negb]; try reflexivity.
  exact IH.
Qed.

(** [find_anchor(node)] returns the first node named [A] or [a] among
    [node], its parent, the parent of that and so on, and nothing exactly
    when none of them has that name. *)
Theorem find_anchor_nearest (n : Node) :
  find_anchor (Some n) = List.find is_anchor (ancestors n)
  /\ (forall a, find_anchor (Some n) = Some a ->
        (DOM.nodeName a = "A" \/ DOM.nodeName a = "a")
        /\ exists nearer further,
             ancestors n = (nearer ++ a :: further)%list
             /\ forall m, In m nearer ->
                  DOM.nodeName m <> "A" /\ DOM.nodeName m <> "a")
  /\ (find_anchor (Some n) = None <->
      forall m, In m (ancestors n) ->
        DOM.nodeName m <> "A" /\ DOM.nodeName m <> "a")
  /\ find_anchor None = None.
Proof.
  cbn [find_anchor]. rewrite find_anchor_from_find.
  assert (N : forall m, is_anchor m = false <->
                        DOM.nodeName m <> "A" /\ DOM.nodeName m <> "a").
  { intros m. unfold is_anchor. rewrite String.eqb_neq, toUpperCase_A. tauto. }
  split; [reflexivity|]. split; [|split; [|reflexivity]].
  - intros a H. split.
    + apply find_some in H as [_ H]. unfold is_anchor in H.
      now apply String.eqb_eq, toUpperCase_A in H.
    + induction (ancestors n) as [|m l IH]; [discriminate|].
      cbn [List.find] in H. destruct (is_anchor m) eqn:E.
      * injection H as ->. exists [], l. split; [reflexivity | intros ? []].
      * destruct (IH H) as (nearer & further & -> & Hn).
        exists (m :: nearer), further. split; [reflexivity|].
        intros m' [<- | Hin]; [now apply N | now apply Hn].
  - split.
    + intros H m Hin. apply N. exact (find_none _ _ H m Hin).
    + intros H. induction (ancestors n) as [|m l IH]; [reflexivity|].
      cbn [List.find]. rewrite (proj2 (N m) (H m (or_introl eq_refl))).
      apply IH. intros m' Hin. apply H. now right.
Qed.

(** ** More on [parse] and [_navigate] *)

Lemma normalize_nonempty (ts : TrailingSlash) (path : string) :
  path <> "" -> normalize_trailing_slash ts path <> "".
Proof.
  intros Hp.
  destruct (normalize_cases ts path) as [[-> _] | (-> & Hroot & _)];
    [exact Hp|].
  destruct (endsWith path "/") eqn:E.
  - apply endsWith_app in E as [stem ->]. rewrite rewritten_trailing.
    intros ->. now apply Hroot.
  - rewrite (rewritten_no_trailing _ E). now destruct path.
Qed.

Section MoreNavigation.

Context {URLSearchParams : Type} {P : Platform URLSearchParams}.

Local Abbreviation NavigationInfo := (@NavigationInfo URLSearchParams).
Local Abbreviation Effect := (@Effect URLSearchParams).
Local Abbreviation Browser := (@Browser URLSearchParams).
Local Abbreviation Promise := (@Promise URLSearchParams).
Local Abbreviation M := (@M URLSearchParams).

Lemma stripped_pathname_nonempty (r : Router) (u : URL) :
  stripped_pathname r u <> "".
Proof.
  unfold stripped_pathname, or_default.
  now destruct (slice (pathname u) _ None).
Qed.

(** The path of a [NavigationInfo] is never empty, neither as [parse]
    returns it nor after the trailing-slash step: the renderer is never
    notified of an empty path. *)
Theorem path_never_empty (r : Router) (loc u : URL) (info : NavigationInfo) :
  parse r loc u = Normal (Some info) ->
  info_path info <> ""
  /\ normalize_trailing_slash (trailing_slash r) (info_path info) <> ""
  /\ forall scroll chain hash (b b' : Browser) (w : Awaited),
       loc = location b ->
       _navigate r u scroll chain hash b = (Awaits w, b') ->
       exists before path,
         trace b'
         = (before ++ [E_notify path (info_query info);
                       E_update (set_path info path) chain false])%list
         /\ path <> "".
Proof.
  intros Hp.
  assert (Hne : info_path info <> "").
  { destruct (parse_some_inv _ _ _ _ Hp) as (_ & _ & _ & D & _).
    intros E. rewrite E in D.
    exact (decodeURIComponent_nonempty _ (stripped_pathname_nonempty r u) D). }
  split; [exact Hne|]. split; [now apply normalize_nonempty|].
  intros scroll chain hash b b' w -> Hn.
  destruct (navigate_hands_over r u scroll chain hash b b' info w Hp Hn)
    as (_ & b1 & -> & _).
  exists (trace b1), (normalize_trailing_slash (trailing_slash r) (info_path info)).
  split; [reflexivity | now apply normalize_nonempty].
Qed.

(** Ownership is a test on prefixes of strings: with the origin of the
    page, every pathname that begins with the base is owned, whatever
    follows the base, and when what follows holds no ['%'] it is the path
    of the [NavigationInfo] as it stands (['/'] when nothing follows). *)
Theorem parse_plain_rest (r : Router) (loc u : URL) (rest : string) :
  origin u = origin loc ->
  pathname u = base r ++ rest ->
  includes rest "%" = false ->
  owns r loc u = true
  /\ exists info,
       parse r loc u = Normal (Some info)
       /\ info_path info = (if rest =? "" then "/" else rest).
Proof.
  intros Ho Hp Hplain.
  assert (O : owns r loc u = true).
  { apply owns_true. split; [exact Ho|]. unfold startsWith.
    apply prefix_app. now exists rest. }
  split; [exact O|].
  assert (D : decodeURIComponent (stripped_pathname r u)
              = Some (if rest =? "" then "/" else rest)).
  { unfold stripped_pathname. rewrite Hp, slice_prefix.
    destruct rest as [|c rest']; [reflexivity|].
    cbn [or_default String.eqb]. now apply decodeURIComponent_plain. }
  rewrite (parse_owned r loc u _ O D). eexists. split; reflexivity.
Qed.

(** [_navigate] by outcome. *)
Lemma navigate_outcome (r : Router) url scroll chain hash (b : Browser) :
  (exists e, _navigate r url scroll chain hash b = (Rejected e, b))
  \/ (exists info b1,
        parse r (location b) url = Normal (Some info)
        /\ _navigate r url scroll chain hash b
           = (Awaits (update_of_renderer scroll hash),
              emitted b1
                [E_notify
                   (normalize_trailing_slash (trailing_slash r)
                      (info_path info)) (info_query info);
                 E_update
                   (set_path info
                      (normalize_trailing_slash (trailing_slash r)
                         (info_path info))) chain false])
        /\ (b1 = b
            \/ history_replaceState empty_state
                 (normalize_trailing_slash (trailing_slash r) (info_path info)
                  ++ search (location b)) b = (Normal tt, b1))).
Proof.
  destruct (parse r (location b) url) as [[info|]|e] eqn:Hp.
  - destruct (normalize_cases (trailing_slash r) (info_path info))
      as [[E H] | (E & Hroot & I)].
    + right. exists info, b. split; [reflexivity|]. split; [|now left].
      rewrite (navigate_as_is r url scroll chain hash b info Hp H).
      now rewrite E, set_path_same.
    + pose proof (navigate_rewrite r url scroll chain hash b info Hp Hroot I)
        as N.
      destruct (history_replaceState empty_state
                  (rewritten (info_path info) ++ search (location b)) b)
        as [[[]|e] b1] eqn:W.
      * right. exists info, b1. split; [reflexivity|]. rewrite E.
        split; [exact N | now right].
      * left. exists e. rewrite N. f_equal.
        unfold history_replaceState, history_write in W.
        destruct (new_URL _ _) as [u|]; [|now injection W].
        destruct (origin u =? origin (location b)); [discriminate|].
        now injection W.
  - left. exists not_owned_navigate. now apply navigate_absent.
  - left. exists e. now apply navigate_throw.
Qed.

(** What [_navigate] never does: it adds no history entry, assigns no
    location, calls neither [preventDefault] nor [renderer.load]; the
    entries behind and ahead of the current one stay as they are.  A
    rejected [_navigate] has changed nothing at all; one that goes on has
    called [renderer.notify] and then [renderer.update], last and in that
    order.  Its promise is never the one that does not settle. *)
Theorem navigate_frame (r : Router) (url : URL)
  (scroll : option ScrollPosition) (chain : list string)
  (hash : option string) (b : Browser) :
  history_length (snd (_navigate r url scroll chain hash b))
  = history_length b
  /\ history_back (snd (_navigate r url scroll chain hash b))
     = history_back b
  /\ history_forward (snd (_navigate r url scroll chain hash b))
     = history_forward b
  /\ origin (location (snd (_navigate r url scroll chain hash b)))
     = origin (location b)
  /\ (exists added,
        trace (snd (_navigate r url scroll chain hash b))
        = (trace b ++ added)%list
        /\ forallb navigation_effect added = true)
  /\ (forall e, fst (_navigate r url scroll chain hash b) = Rejected e ->
        snd (_navigate r url scroll chain hash b) = b)
  /\ (forall w, fst (_navigate r url scroll chain hash b) = Awaits w ->
        exists before path query info,
          trace (snd (_navigate r url scroll chain hash b))
          = (before ++ [E_notify path query; E_update info chain false])%list
          /\ info_path info = path /\ info_query info = query)
  /\ fst (_navigate r url scroll chain hash b) <> NeverSettles.
Proof.
  destruct (navigate_outcome r url scroll chain hash b)
    as [[e ->] | (info & b1 & Hp & -> & Hb1)]; cbn [fst snd].
  - repeat split; try reflexivity; try discriminate.
    exists []. split; [now rewrite app_nil_r | reflexivity].
  - destruct Hb1 as [-> | W].
    + repeat split; try reflexivity; try discriminate.
      * eexists. split; reflexivity.
      * intros w _. do 4 eexists. split; [reflexivity|]. now split.
    + apply history_write_inv in W as (u & _ & Ho & ->).
      repeat split; try reflexivity; try discriminate; try exact Ho.
      * eexists. split.
        -- cbn [trace emitted with_trace store_entry with_history].
           rewrite <- app_assoc. reflexivity.
        -- reflexivity.
      * intros w _. do 4 eexists. split; [reflexivity|]. now split.
Qed.

End MoreNavigation.

(** ** The rest of [_navigate], [init] and the listeners *)

Section MoreListeners.

Context {URLSearchParams : Type} {P : Platform URLSearchParams}.

Local Abbreviation NavigationInfo := (@NavigationInfo URLSearchParams).
Local Abbreviation Effect := (@Effect URLSearchParams).
Local Abbreviation Browser := (@Browser URLSearchParams).
Local Abbreviation Promise := (@Promise URLSearchParams).
Local Abbreviation M := (@M URLSearchParams).

(** After [renderer.update], [_navigate] focuses the body and then scrolls
    once, and does nothing else: to the position given (the one stored in
    the history entry, on [popstate]) if there is one, whatever the hash;
    otherwise, for a hash ['#id'] naming an element of the document, to
    that element, at its distance from the top of the viewport plus the
    current vertical offset; otherwise to the origin. *)
Theorem navigate_resume_scrolls (scroll : option ScrollPosition)
  (hash : option string) (b : Browser) :
  exists x y,
    _navigate_resume scroll hash b
    = (Normal tt, emitted b [E_focus; E_scrollTo x y])
    /\ (forall s, scroll = Some s -> x = scroll_x s /\ y = scroll_y s)
    /\ (forall id top,
          scroll = None -> hash = Some ("#" ++ id) ->
          getElementById b id = Some top ->
          x = 0%Z /\ y = (top + pageYOffset b)%Z)
    /\ (scroll = None ->
        hash = None \/ hash = Some ""
        \/ (exists id, hash = Some ("#" ++ id) /\ getElementById b id = None) ->
        x = 0%Z /\ y = 0%Z).
Proof.
  assert (S : forall id, slice (String "#" id) 1 None = id)
    by (intros id; exact (slice_prefix "#" id)).
  unfold _navigate_resume, bind, emit, get.
  destruct scroll as [s|].
  - exists (scroll_x s), (scroll_y s). rewrite emitted_emitted.
    split; [reflexivity|]. split; [now intros s' [= <-]|].
    split; [discriminate | intros H; discriminate H].
  - destruct hash as [h|].
    + destruct h as [|c h'].
      * exists 0%Z, 0%Z. cbn [truthy]. rewrite emitted_emitted.
        split; [reflexivity|]. split; [discriminate|].
        split; [intros id top _ H; discriminate H | now intros _ _].
      * cbn [truthy].
        change (getElementById (emitted b [E_focus]) (slice (String c h') 1 None))
          with (getElementById b (slice (String c h') 1 None)).
        change (pageYOffset (emitted b [E_focus])) with (pageYOffset b).
        destruct (getElementById b (slice (String c h') 1 None)) as [top|] eqn:G.
        -- exists 0%Z, (top + pageYOffset b)%Z. rewrite emitted_emitted.
           split; [reflexivity|]. split; [discriminate|]. split.
           ++ intros id top' _ H G'. injection H as -> ->.
              rewrite S in G. split; congruence.
           ++ intros _ [H | [H | (id & H & G')]]; try discriminate.
              injection H as -> ->. rewrite S in G. congruence.
        -- exists 0%Z, 0%Z. rewrite emitted_emitted.
           split; [reflexivity|]. split; [discriminate|]. split.
           ++ intros id top' _ H G'. injection H as -> ->.
              rewrite S in G. congruence.
           ++ now intros _ _.
    + exists 0%Z, 0%Z. rewrite emitted_emitted.
      split; [reflexivity|]. split; [discriminate|].
      split; [discriminate | now intros _ _].
Qed.

(** A history write changes nothing but the current entry and the trace,
    or, if it throws, nothing. *)
Lemma replaceState_outcome (state : HistoryState) (url : string) (b : Browser) :
  history_replaceState state url b = (Throw SecurityError, b)
  \/ exists u,
       new_URL url (Some (baseURI b)) = Some u
       /\ origin u = origin (location b)
       /\ history_replaceState state url b
          = (Normal tt,
             emitted (store_entry false state u b) [E_replaceState state url]).
Proof.
  unfold history_replaceState, history_write.
  destruct (new_URL url (Some (baseURI b))) as [u|]; [|now left].
  destruct (String.eqb_spec (origin u) (origin (location b))); [|now left].
  right. now exists u.
Qed.

(** Updates of the page compose, and leave history and location alone. *)
Lemma with_page_with_page (b : Browser) sr tab ls sr' tab' ls' :
  with_page (with_page b sr tab ls) sr' tab' ls' = with_page b sr' tab' ls'.
Proof. reflexivity. Qed.

Lemma history_state_with_page (b : Browser) sr tab ls :
  history_state (with_page b sr tab ls) = history_state b.
Proof. reflexivity. Qed.

Lemma location_with_page (b : Browser) sr tab ls :
  location (with_page b sr tab ls) = location b.
Proof. reflexivity. Qed.

Lemma scrollRestoration_with_page (b : Browser) sr tab ls :
  scrollRestoration (with_page b sr tab ls) = sr.
Proof. reflexivity. Qed.

Lemma body_tabindex_with_page (b : Browser) sr tab ls :
  body_tabindex (with_page b sr tab ls) = tab.
Proof. reflexivity. Qed.

Lemma listeners_with_page (b : Browser) sr tab ls :
  listeners (with_page b sr tab ls) = ls.
Proof. reflexivity. Qed.

(** The steps of a computation, one at a time. *)
Lemma bind_get {A} (k : Browser -> M A) (b : Browser) :
  bind get k b = k b b.
Proof. reflexivity. Qed.

Lemma bind_ret {A B} (a : A) (k : A -> M B) (b : Browser) :
  bind (ret a) k b = k a b.
Proof. reflexivity. Qed.

Lemma bind_update {A} (f : Browser -> Browser) (k : unit -> M A)
  (b : Browser) :
  bind (fun b => (Normal tt, f b)) k b = k tt (f b).
Proof. reflexivity. Qed.

Lemma with_page_same (b : Browser) :
  with_page b (scrollRestoration b) (body_tabindex b) (listeners b) = b.
Proof. now destruct b. Qed.

Ltac page :=
  rewrite ?with_page_with_page, ?history_state_with_page,
    ?location_with_page, ?scrollRestoration_with_page,
    ?body_tabindex_with_page, ?listeners_with_page.

(** The body of [init] in one step: the page is prepared, then the
    current entry is written. *)
Lemma init_body (r : Router) (b : Browser) :
  snd (init r) b
  = history_replaceState
      (match history_state b with Some s => s | None => empty_state end)
      (href (location b))
      (with_page b (option_map (fun _ => manual) (scrollRestoration b))
         (Some "-1") (listeners b ++ init_listeners)%list).
Proof.
  unfold init. cbn [snd]. rewrite bind_get.
  assert (E : forall A (k : unit -> M A),
            bind (match scrollRestoration b with
                  | Some _ => set_scrollRestoration manual
                  | None => ret tt
                  end) k b
            = k tt (with_page b
                      (option_map (fun _ => manual) (scrollRestoration b))
                      (body_tabindex b) (listeners b))).
  { intros A k. destruct (scrollRestoration b) eqn:SR.
    - unfold set_scrollRestoration. now rewrite bind_update.
    - rewrite bind_ret. cbn [option_map]. rewrite <- SR.
      now rewrite with_page_same. }
  rewrite E. unfold addEventListener.
  repeat (rewrite bind_update; page).
  rewrite bind_get. page.
  unfold init_listeners. now rewrite <- !app_assoc.
Qed.

(** [init] sets the flag and keeps the configuration; it registers its
    seven listeners after those already there, makes the body focusable,
    switches scroll restoration to manual where the browser has it, and
    writes the history at most once, in place: the history is as long as
    before, with the same entries behind and ahead.  When the URL of the
    page resolves to itself, the current entry keeps its URL and gets the
    state it had, or [{}] if it had none. *)
Theorem init_in_place (r : Router) (b : Browser) :
  enabled (fst (init r)) = true
  /\ base (fst (init r)) = base r
  /\ routes (fst (init r)) = routes r
  /\ trailing_slash (fst (init r)) = trailing_slash r
  /\ listeners (snd (snd (init r) b)) = (listeners b ++ init_listeners)%list
  /\ body_tabindex (snd (snd (init r) b)) = Some "-1"
  /\ scrollRestoration (snd (snd (init r) b))
     = option_map (fun _ => manual) (scrollRestoration b)
  /\ history_length (snd (snd (init r) b)) = history_length b
  /\ history_back (snd (snd (init r) b)) = history_back b
  /\ history_forward (snd (snd (init r) b)) = history_forward b
  /\ (trace (snd (snd (init r) b)) = trace b
      \/ exists state,
           trace (snd (snd (init r) b))
           = (trace b ++ [E_replaceState state (href (location b))])%list)
  /\ (new_URL (href (location b)) (Some (baseURI b)) = Some (location b) ->
      fst (snd (init r) b) = Normal tt
      /\ location (snd (snd (init r) b)) = location b
      /\ history_state (snd (snd (init r) b))
         = Some (match history_state b with
                 | Some s => s
                 | None => empty_state
                 end)).
Proof.
  split; [reflexivity|]. split; [reflexivity|]. split; [reflexivity|].
  split; [reflexivity|]. rewrite init_body.
  set (b9 := with_page b _ (Some "-1") _).
  assert (Hbu : baseURI b9 = baseURI b) by reflexivity.
  assert (Hloc : location b9 = location b) by reflexivity.
  destruct (replaceState_outcome
              (match history_state b with Some s => s | None => empty_state end)
              (href (location b)) b9) as [W | (u & Hu & Ho & W)]; rewrite W;
    cbn [snd fst].
  - repeat (split; [reflexivity|]). split; [now left|].
    intros Hround. rewrite <- Hbu in Hround.
    unfold history_replaceState, history_write in W. rewrite Hround in W.
    rewrite Hloc, String.eqb_refl in W. discriminate W.
  - repeat (split; [reflexivity|]).
    split; [right; eexists; reflexivity|].
    intros Hround. rewrite <- Hbu, Hu in Hround. injection Hround as ->.
    split; [reflexivity|]. split; reflexivity.
Qed.

(** Scroll tracking.  Scroll events only arm the timer, so a burst of
    them counts as one; when the timer fires, the current offsets are
    stored in the current history entry, in place, against the URL of the
    page; without a pending timer nothing is written.  The router being
    enabled or not plays no part. *)
Theorem scroll_tracking (b : Browser) :
  snd (on_scroll (snd (on_scroll b))) = snd (on_scroll b)
  /\ trace (snd (on_scroll b)) = trace b
  /\ (scroll_timer b = false -> scroll_timer_fires b = (Normal tt, b))
  /\ scroll_timer (snd (scroll_timer_fires (snd (on_scroll b)))) = false
  /\ history_length (snd (scroll_timer_fires (snd (on_scroll b))))
     = history_length b
  /\ history_back (snd (scroll_timer_fires (snd (on_scroll b))))
     = history_back b
  /\ history_forward (snd (scroll_timer_fires (snd (on_scroll b))))
     = history_forward b
  /\ (new_URL (href (location b)) (Some (baseURI b)) = Some (location b) ->
      fst (scroll_timer_fires (snd (on_scroll b))) = Normal tt
      /\ location (snd (scroll_timer_fires (snd (on_scroll b)))) = location b
      /\ history_state (snd (scroll_timer_fires (snd (on_scroll b))))
         = Some {| sveltekit_scroll := Some (scroll_state b) |}
      /\ trace (snd (scroll_timer_fires (snd (on_scroll b))))
         = (trace b
            ++ [E_replaceState
                  {| sveltekit_scroll := Some (scroll_state b) |}
                  (href (location b))])%list).
Proof.
  split; [reflexivity|]. split; [reflexivity|].
  split; [unfold scroll_timer_fires; now intros ->|].
  unfold scroll_timer_fires, on_scroll. cbn [snd scroll_timer with_timers].
  set (b1 := with_timers _ false _).
  assert (Hbu : baseURI b1 = baseURI b) by reflexivity.
  assert (Hloc : location b1 = location b) by reflexivity.
  change (scroll_state b1) with (scroll_state b).
  destruct (replaceState_outcome
              {| sveltekit_scroll := Some (scroll_state b) |}
              (href (location b1)) b1) as [W | (u & Hu & Ho & W)]; rewrite W;
    cbn [snd fst].
  - do 4 (split; [reflexivity|]).
    intros Hround. rewrite <- Hbu, <- Hloc in Hround.
    unfold history_replaceState, history_write in W. rewrite Hround in W.
    rewrite String.eqb_refl in W. discriminate W.
  - do 4 (split; [reflexivity|]).
    intros Hround. rewrite <- Hbu, <- Hloc, Hu in Hround.
    injection Hround as ->. repeat split.
Qed.

(** [prefetch] by outcome: it rejects and changes nothing, or calls
    [renderer.load] and changes nothing else. *)
Lemma prefetch_outcome (r : Router) (url : URL) (b : Browser) :
  (exists e, prefetch r url b = (Rejected e, b)
             /\ forall info, parse r (location b) url <> Normal (Some info))
  \/ (exists info,
        parse r (location b) url = Normal (Some info)
        /\ prefetch r url b
           = (Awaits (load_of_renderer info), emitted b [E_load info])).
Proof.
  unfold prefetch, async, bind, get, lift.
  destruct (parse r (location b) url) as [[info|]|e].
  - right. now exists info.
  - left. exists not_owned_prefetch. split; [reflexivity | discriminate].
  - left. exists e. split; [reflexivity | discriminate].
Qed.

(** [trigger_prefetch] by cases. *)
Lemma trigger_prefetch_no_anchor (r : Router) (event : MouseEvent)
  (b : Browser) :
  find_anchor (event_target event) = None ->
  trigger_prefetch r event b = (Normal tt, b).
Proof. unfold trigger_prefetch. now intros ->. Qed.

Lemma trigger_prefetch_unmarked (r : Router) (event : MouseEvent) (a : Node)
  (b : Browser) :
  find_anchor (event_target event) = Some a ->
  hasAttribute a "sveltekit:prefetch" = false
  \/ IDL_truthy (DOM.href a) = false ->
  trigger_prefetch r event b = (Normal tt, b).
Proof.
  unfold trigger_prefetch. intros -> [H | H]; rewrite H;
    [now rewrite andb_false_r | reflexivity].
Qed.

Lemma trigger_prefetch_marked (r : Router) (event : MouseEvent) (a : Node)
  (b : Browser) :
  find_anchor (event_target event) = Some a ->
  IDL_truthy (DOM.href a) = true ->
  hasAttribute a "sveltekit:prefetch" = true ->
  trigger_prefetch r event b
  = match new_URL (IDL_String (DOM.href a)) None with
    | None => (Throw TypeError, b)
    | Some url => (Normal tt, snd (prefetch r url b))
    end.
Proof.
  unfold trigger_prefetch. intros -> -> ->. cbn [andb].
  destruct (new_URL (IDL_String (DOM.href a)) None) as [url|]; [|reflexivity].
  unfold bind, call, ret. now destruct (prefetch r url b).
Qed.

(** What [trigger_prefetch] leaves behind. *)
Lemma trigger_prefetch_frame_state (r : Router) (event : MouseEvent)
  (b : Browser) :
  snd (trigger_prefetch r event b) = b
  \/ exists info, snd (trigger_prefetch r event b) = emitted b [E_load info].
Proof.
  destruct (find_anchor (event_target event)) as [a|] eqn:Hf.
  2: { left. now rewrite trigger_prefetch_no_anchor. }
  destruct (IDL_truthy (DOM.href a)) eqn:Ht.
  2: { left. rewrite (trigger_prefetch_unmarked r event a b Hf); tauto. }
  destruct (hasAttribute a "sveltekit:prefetch") eqn:Ha.
  2: { left. rewrite (trigger_prefetch_unmarked r event a b Hf); tauto. }
  rewrite (trigger_prefetch_marked r event a b Hf Ht Ha).
  destruct (new_URL (IDL_String (DOM.href a)) None) as [url|]; [|now left].
  destruct (prefetch_outcome r url b) as [(e & -> & _) | (info & _ & ->)];
    [now left | right; now exists info].
Qed.

(** [trigger_prefetch] acts only on a target inside an anchor that has an
    href and carries [sveltekit:prefetch]; it then calls [renderer.load]
    once if the URL of the anchor is owned and decodes, and nothing
    otherwise: a link outside the application is passed over in silence,
    the rejected promise of [prefetch] being dropped.  It never writes the
    history, never calls [preventDefault], and throws only when the href
    is not a URL. *)
Theorem trigger_prefetch_frame (r : Router) (event : MouseEvent) (b : Browser) :
  (snd (trigger_prefetch r event b) = b
   \/ exists info, snd (trigger_prefetch r event b) = emitted b [E_load info])
  /\ (fst (trigger_prefetch r event b) = Normal tt
      \/ fst (trigger_prefetch r event b) = Throw TypeError)
  /\ (find_anchor (event_target event) = None ->
      trigger_prefetch r event b = (Normal tt, b))
  /\ (forall a, find_anchor (event_target event) = Some a ->
        hasAttribute a "sveltekit:prefetch" = false
        \/ IDL_truthy (DOM.href a) = false ->
        trigger_prefetch r event b = (Normal tt, b))
  /\ (forall a url,
        find_anchor (event_target event) = Some a ->
        new_URL (IDL_String (DOM.href a)) None = Some url ->
        owns r (location b) url = false ->
        trigger_prefetch r event b = (Normal tt, b))
  /\ (forall a url info,
        find_anchor (event_target event) = Some a ->
        IDL_truthy (DOM.href a) = true ->
        hasAttribute a "sveltekit:prefetch" = true ->
        new_URL (IDL_String (DOM.href a)) None = Some url ->
        parse r (location b) url = Normal (Some info) ->
        trigger_prefetch r event b = (Normal tt, emitted b [E_load info])).
Proof.
  split; [apply trigger_prefetch_frame_state|].
  split.
  { destruct (find_anchor (event_target event)) as [a|] eqn:Hf.
    2: { left. now rewrite trigger_prefetch_no_anchor. }
    destruct (IDL_truthy (DOM.href a)) eqn:Ht.
    2: { left. rewrite (trigger_prefetch_unmarked r event a b Hf); tauto. }
    destruct (hasAttribute a "sveltekit:prefetch") eqn:Ha.
    2: { left. rewrite (trigger_prefetch_unmarked r event a b Hf); tauto. }
    rewrite (trigger_prefetch_marked r event a b Hf Ht Ha).
    destruct (new_URL (IDL_String (DOM.href a)) None); [now left | now right]. }
  split; [apply trigger_prefetch_no_anchor|].
  split; [intros a; apply trigger_prefetch_unmarked|].
  split.
  - intros a url Hf Hu O.
    destruct (IDL_truthy (DOM.href a)) eqn:Ht.
    2: { rewrite (trigger_prefetch_unmarked r event a b Hf); tauto. }
    destruct (hasAttribute a "sveltekit:prefetch") eqn:Ha.
    2: { rewrite (trigger_prefetch_unmarked r event a b Hf); tauto. }
    rewrite (trigger_prefetch_marked r event a b Hf Ht Ha), Hu.
    destruct (prefetch_outcome r url b) as [(e & -> & _) | (info & Hp & _)];
      [reflexivity|].
    rewrite (parse_not_owned _ _ _ O) in Hp. discriminate.
  - intros a url info Hf Ht Ha Hu Hp.
    rewrite (trigger_prefetch_marked r event a b Hf Ht Ha), Hu.
    destruct (prefetch_outcome r url b) as [(e & _ & Hn) | (info' & Hp' & ->)].
    + now apply Hn in Hp.
    + cbn [snd]. congruence.
Qed.

(** Hover prefetch.  Mouse moves only arm the timer with the latest
    event, the earlier one being forgotten; when the timer fires it runs
    [trigger_prefetch] on that event, once: the timer is then clear, and a
    timer that is clear does nothing. *)
Theorem hover_prefetch_debounce (r : Router) (e1 e2 : MouseEvent) (b : Browser) :
  snd (handle_mousemove e2 (snd (handle_mousemove e1 b)))
  = snd (handle_mousemove e2 b)
  /\ trace (snd (handle_mousemove e2 b)) = trace b
  /\ mousemove_timeout_fires r (snd (handle_mousemove e2 b))
     = trigger_prefetch r e2 (with_timers b (scroll_timer b) None)
  /\ mousemove_timeout
       (snd (mousemove_timeout_fires r (snd (handle_mousemove e2 b)))) = None
  /\ (mousemove_timeout b = None ->
      mousemove_timeout_fires r b = (Normal tt, b)).
Proof.
  split; [reflexivity|]. split; [reflexivity|]. split; [reflexivity|].
  split.
  - change (mousemove_timeout_fires r (snd (handle_mousemove e2 b)))
      with (trigger_prefetch r e2 (with_timers b (scroll_timer b) None)).
    destruct (trigger_prefetch_frame_state r e2
                (with_timers b (scroll_timer b) None)) as [-> | [info ->]];
      reflexivity.
  - unfold mousemove_timeout_fires. now intros ->.
Qed.

(** [_navigate] keeps the entries behind and ahead of the current one, and
    the origin of the page. *)
Lemma navigate_keeps_entries (r : Router) url scroll chain hash (b : Browser) :
  history_back (snd (_navigate r url scroll chain hash b)) = history_back b
  /\ history_forward (snd (_navigate r url scroll chain hash b))
     = history_forward b
  /\ origin (location (snd (_navigate r url scroll chain hash b)))
     = origin (location b).
Proof.
  destruct (navigate_outcome r url scroll chain hash b)
    as [[e ->] | (info & b1 & _ & -> & [-> | W])]; cbn [snd];
    try (repeat split; reflexivity).
  apply history_write_inv in W as (u & _ & Ho & ->). now repeat split.
Qed.

(** Clicks the listener leaves to the browser: the browser state is as it
    was, [preventDefault] included, for a click it does not accept, a click
    outside any anchor or on an anchor without href, and for an accepted
    click on a link to another URL that has a [download] attribute, or
    [external] among the words of [rel], or a target, or a URL that is not
    owned. *)
Theorem click_left_to_browser (r : Router) (event : MouseEvent) (b : Browser) :
  (accepts event = false -> on_click r event b = (Normal tt, b))
  /\ (find_anchor (event_target event) = None ->
      on_click r event b = (Normal tt, b))
  /\ (forall a, find_anchor (event_target event) = Some a ->
        anchor_href a = None -> on_click r event b = (Normal tt, b))
  /\ (forall a href_string,
        find_anchor (event_target event) = Some a ->
        anchor_href a = Some href_string ->
        href_string <> href (location b) ->
        hasAttribute a "download" = true
        \/ rel_external a = true
        \/ (exists v, anchor_target a = Normal v /\ IDL_truthy v = true)
        \/ (exists v url,
              anchor_target a = Normal v
              /\ new_URL href_string None = Some url
              /\ owns r (location b) url = false) ->
        on_click r event b = (Normal tt, b)).
Proof.
  split; [apply on_click_not_accepted|].
  assert (G : forall a, find_anchor (event_target event) = Some a ->
              enabled r = false \/ accepts event = false
              \/ (enabled r = true /\ accepts event = true)).
  { intros a _. destruct (enabled r); [|now left].
    destruct (accepts event); [right; right; now split | right; now left]. }
  split.
  { intros Hf. unfold on_click. rewrite Hf.
    destruct (negb (enabled r)); [reflexivity|].
    destruct (negb (button event =? 0)%Z || negb (which event =? 1)%Z);
      [reflexivity|].
    destruct (metaKey event || ctrlKey event || shiftKey event || altKey event);
      [reflexivity|].
    now destruct (defaultPrevented event). }
  split.
  { intros a Hf Hh. unfold on_click. rewrite Hf.
    assert (T : IDL_truthy (DOM.href a) = false).
    { unfold anchor_href in Hh. destruct (DOM.href a) as [|s|s];
        [reflexivity | | discriminate].
      cbn [IDL_truthy]. now destruct (truthy s). }
    rewrite T. cbn [negb].
    destruct (negb (enabled r)); [reflexivity|].
    destruct (negb (button event =? 0)%Z || negb (which event =? 1)%Z);
      [reflexivity|].
    destruct (metaKey event || ctrlKey event || shiftKey event || altKey event);
      [reflexivity|].
    now destruct (defaultPrevented event). }
  intros a h Hf Hh Hne Hc.
  destruct (G a Hf) as [He | [Ha | [He Ha]]];
    [now apply on_click_disabled | now apply on_click_not_accepted|].
  rewrite (on_click_accepted r event a h b He Ha Hf Hh).
  apply String.eqb_neq in Hne. rewrite Hne.
  destruct (hasAttribute a "download" || rel_external a) eqn:D; [reflexivity|].
  apply orb_false_iff in D as [D1 D2].
  destruct Hc as [H | [H | [(v & Hv & Ht) | (v & url & Hv & Hu & Ho)]]];
    try congruence.
  - unfold bind, lift. now rewrite Hv, Ht.
  - unfold bind at 1, lift at 1. rewrite Hv.
    destruct (IDL_truthy v); [reflexivity|]. now rewrite Hu, Ho.
Qed.

(** The click that navigates, in one equation. *)
Lemma on_click_navigates (r : Router) (event : MouseEvent) (a : Node)
  (href_string : string) (url : URL) (target_value : IDLValue) (b : Browser) :
  enabled r = true -> accepts event = true ->
  find_anchor (event_target event) = Some a ->
  anchor_href a = Some href_string ->
  href_string <> href (location b) ->
  hasAttribute a "download" = false ->
  rel_external a = false ->
  anchor_target a = Normal target_value ->
  IDL_truthy target_value = false ->
  new_URL href_string None = Some url ->
  owns r (location b) url = true ->
  new_URL (href url) (Some (baseURI b)) = Some url ->
  let b1 := emitted (store_entry true empty_state url b)
              [E_pushState empty_state (href url)] in
  on_click r event b
  = (Normal tt,
     emitted
       (snd (_navigate r url
               (if hasAttribute a "sveltekit:noscroll"
                then Some (scroll_state b1) else None)
               [] (Some (hash url)) b1))
       [E_preventDefault]).
Proof.
  intros He Ha Hf Hh Hne Hd Hrel Ht Htv Hu Ho Hround b1.
  rewrite (on_click_accepted r event a href_string b He Ha Hf Hh).
  apply String.eqb_neq in Hne. rewrite Hne, Hd, Hrel. cbn [orb].
  unfold bind at 1, lift at 1. rewrite Ht, Htv, Hu, Ho. cbn [negb].
  assert (Horigin : origin url = origin (location b)).
  { apply owns_true in Ho. tauto. }
  pose proof (history_write_ok true empty_state (href url) url b
                Hround Horigin) as W.
  fold history_pushState in W.
  change (history_pushState empty_state (href url) b = (Normal tt, b1)) in W.
  unfold bind at 1. rewrite W.
  unfold bind at 1, get at 1. unfold bind at 1, call at 1.
  now destruct (_navigate r url _ [] (Some (hash url)) b1).
Qed.

(** A click that navigates adds exactly one history entry, whatever
    [_navigate] does afterwards: the entry of the page left is the one to
    go back to, nothing is left ahead, the page stays in its origin, and
    [preventDefault] is the last thing called.  A rewrite of the trailing
    slash by [_navigate] takes place in the new entry. *)
Theorem click_adds_one_entry (r : Router) (event : MouseEvent) (a : Node)
  (href_string : string) (url : URL) (target_value : IDLValue) (b : Browser) :
  enabled r = true -> accepts event = true ->
  find_anchor (event_target event) = Some a ->
  anchor_href a = Some href_string ->
  href_string <> href (location b) ->
  hasAttribute a "download" = false ->
  rel_external a = false ->
  anchor_target a = Normal target_value ->
  IDL_truthy target_value = false ->
  new_URL href_string None = Some url ->
  owns r (location b) url = true ->
  new_URL (href url) (Some (baseURI b)) = Some url ->
  fst (on_click r event b) = Normal tt
  /\ history_back (snd (on_click r event b))
     = history_entry b :: history_back b
  /\ history_forward (snd (on_click r event b)) = []
  /\ history_length (snd (on_click r event b))
     = List.length (history_back b) + 2
  /\ origin (location (snd (on_click r event b))) = origin (location b)
  /\ exists before,
       trace (snd (on_click r event b))
       = (trace b ++ E_pushState empty_state (href url) :: before
          ++ [E_preventDefault])%list
       /\ forallb navigation_effect before = true.
Proof.
  intros He Ha Hf Hh Hne Hd Hrel Ht Htv Hu Ho Hround.
  rewrite (on_click_navigates r event a href_string url target_value b
             He Ha Hf Hh Hne Hd Hrel Ht Htv Hu Ho Hround).
  assert (Horigin : origin url = origin (location b)).
  { apply owns_true in Ho. tauto. }
  set (b1 := emitted (store_entry true empty_state url b)
               [E_pushState empty_state (href url)]).
  set (sc := if hasAttribute a "sveltekit:noscroll"
             then Some (scroll_state b1) else None).
  destruct (navigate_keeps_entries r url sc [] (Some (hash url)) b1)
    as (Hb & Hfw & Hor).
  cbn [fst snd].
  change (history_back (emitted ?x _)) with (history_back x).
  change (history_forward (emitted ?x _)) with (history_forward x).
  change (location (emitted ?x _)) with (location x).
  unfold history_length.
  change (history_back (emitted ?x _)) with (history_back x).
  change (history_forward (emitted ?x _)) with (history_forward x).
  rewrite Hb, Hfw, Hor.
  split; [reflexivity|]. split; [reflexivity|]. split; [reflexivity|].
  split; [cbn; lia|]. split; [exact Horigin|].
  destruct (navigate_outcome r url sc [] (Some (hash url)) b1)
    as [[e N] | (info & b2 & _ & N & Hb2)]; rewrite N; cbn [snd].
  - exists []. split; [|reflexivity].
    cbn [trace emitted with_trace b1 store_entry with_history app].
    now rewrite <- app_assoc.
  - assert (T : forall (mid : list Effect) b',
               trace b' = trace b1 ->
               trace (emitted (emitted b' mid) [E_preventDefault])
               = (trace b ++ E_pushState empty_state (href url)
                    :: mid ++ [E_preventDefault])%list).
    { intros mid b' E. change (trace (emitted (emitted b' mid) _))
        with ((trace b' ++ mid) ++ [E_preventDefault])%list.
      rewrite E.
      change (trace b1)
        with (trace b ++ [E_pushState empty_state (href url)])%list.
      now rewrite <- !app_assoc. }
    destruct Hb2 as [-> | W2].
    + eexists. split; [now apply T | reflexivity].
    + apply history_write_inv in W2 as (u2 & _ & _ & ->).
      exists (E_replaceState empty_state
                (normalize_trailing_slash (trailing_slash r) (info_path info)
                 ++ search (location b1))
              :: [E_notify
                    (normalize_trailing_slash (trailing_slash r)
                       (info_path info)) (info_query info);
                  E_update
                    (set_path info
                       (normalize_trailing_slash (trailing_slash r)
                          (info_path info))) [] false]).
      split; [|reflexivity].
      rewrite <- (T _ b1 eq_refl).
      change (trace (emitted (emitted ?x ?m) ?n))
        with ((trace x ++ m) ++ n)%list.
      change (trace (emitted ?x ?m)) with (trace x ++ m)%list.
      change (trace (store_entry ?p ?st ?u ?x)) with (trace x).
      now rewrite <- !app_assoc.
Qed.

(** [popstate].  Without a state in the event, or with the router
    disabled, the listener does nothing.  Otherwise it runs [_navigate] on
    the URL of the page with the scroll position stored in the state, an
    empty chain and no hash, without testing ownership first: on a page
    outside the base the promise of [_navigate] is rejected and dropped,
    and nothing happens.  The listener adds no history entry. *)
Theorem popstate_replays (r : Router) (state : option HistoryState)
  (b : Browser) :
  (state = None \/ enabled r = false -> on_popstate r state b = (Normal tt, b))
  /\ history_length (snd (on_popstate r state b)) = history_length b
  /\ (forall st url,
        state = Some st -> enabled r = true ->
        new_URL (href (location b)) None = Some url ->
        on_popstate r state b
        = (Normal tt,
           snd (_navigate r url (sveltekit_scroll st) [] None b))
        /\ (owns r (location b) url = false ->
            fst (_navigate r url (sveltekit_scroll st) [] None b)
            = Rejected not_owned_navigate
            /\ on_popstate r state b = (Normal tt, b))).
Proof.
  split.
  { intros [-> | He]; [reflexivity | now apply on_popstate_disabled]. }
  split.
  { unfold on_popstate. destruct state as [st|]; [|reflexivity].
    destruct (enabled r); [|reflexivity].
    unfold bind at 1, get at 1.
    destruct (new_URL (href (location b)) None) as [url|]; [|reflexivity].
    unfold bind, call, ret.
    destruct (navigate_keeps_entries r url (sveltekit_scroll st) [] None b)
      as (Hb & Hf & _).
    destruct (_navigate r url (sveltekit_scroll st) [] None b) as [p b'].
    cbn [snd] in *. unfold history_length. now rewrite Hb, Hf. }
  intros st url -> He Hu.
  assert (E : on_popstate r (Some st) b
              = (Normal tt,
                 snd (_navigate r url (sveltekit_scroll st) [] None b))).
  { unfold on_popstate. rewrite He. unfold bind at 1, get at 1. rewrite Hu.
    unfold bind, call, ret.
    now destruct (_navigate r url (sveltekit_scroll st) [] None b). }
  split; [exact E|].
  intros O. rewrite E.
  now rewrite (navigate_absent r url (sveltekit_scroll st) [] None b
                 (parse_not_owned _ _ _ O)).
Qed.

End MoreListeners.

(** * Further properties of the configuration options *)

Section MoreOptions.

Context {Number : Type} {N : Numbers Number}.

Local Abbreviation JSValue := (@JSValue Number).
Local Abbreviation ConfigDefinition := (@ConfigDefinition Number).

(** ** Arrays of strings and [forEach] *)

Lemma strings_of_map (l : list string) :
  strings_of (map (@JString Number) l) = Some l.
Proof. induction l as [|x l IH]; cbn; [reflexivity | now rewrite IH]. Qed.

Lemma strings_of_inv (items : list JSValue) (l : list string) :
  strings_of items = Some l -> items = map JString l.
Proof.
  revert l. induction items as [|v items IH]; intros l H.
  - injection H as <-. reflexivity.
  - cbn in H. destruct v; try discriminate.
    destruct (strings_of items) as [l'|]; [|discriminate].
    injection H as <-. cbn. now rewrite (IH l' eq_refl).
Qed.

Lemma array_of_strings_iff (v : JSValue) (l : list string) :
  array_of_strings v = Some l <-> v = JArray (map JString l).
Proof.
  split.
  - destruct v; try discriminate. cbn. intros H.
    now rewrite (strings_of_inv _ _ H).
  - intros ->. apply strings_of_map.
Qed.

Lemma forEach_passes (f : string -> completion unit) (ok : string -> bool)
  (l : list string) :
  (forall x, f x = Normal tt <-> ok x = true) ->
  forEach f l = Normal tt <-> forallb ok l = true.
Proof.
  intros H. induction l as [|x l IH]; cbn; [tauto|].
  rewrite andb_true_iff, <- IH, <- H.
  destruct (f x) as [[]|e]; [tauto|]. split; [discriminate|].
  intros [? _]. discriminate.
Qed.

Lemma forEach_stops (f : string -> completion unit) (ok : string -> bool)
  (good : list string) (x : string) (rest : list string) :
  (forall x, f x = Normal tt <-> ok x = true) ->
  forallb ok good = true ->
  forEach f (good ++ x :: rest)
  = match f x with Normal _ => forEach f rest | Throw e => Throw e end.
Proof.
  intros H. induction good as [|y good IH]; cbn; [reflexivity|].
  intros G. apply andb_true_iff in G as [Gy G]. apply H in Gy.
  rewrite Gy. now apply IH.
Qed.

(** ** The pattern of file extensions *)

Lemma pattern_run_word (g t : string) :
  every_char alphanumeric g = true ->
  pattern_run in_name t = true -> pattern_run in_name (g ++ t) = true.
Proof.
  induction g as [|c g IH]; cbn; [tauto|].
  intros H T. apply andb_true_iff in H as [Hc Hg]. rewrite Hc. now apply IH.
Qed.

Lemma pattern_run_dotted (groups : list string) :
  forallb alphanumeric_word groups = true ->
  pattern_run in_name (dotted groups) = true.
Proof.
  induction groups as [|g groups IH]; cbn; [reflexivity|].
  intros H. apply andb_true_iff in H as [Hg H].
  unfold alphanumeric_word in Hg. apply andb_true_iff in Hg as [Hn Hg].
  destruct g as [|c g]; [discriminate|]. cbn in Hg |- *.
  apply andb_true_iff in Hg as [Hc Hg]. rewrite Hc.
  apply pattern_run_word; auto.
Qed.

Lemma pattern_run_inv (s : string) :
  (pattern_run in_name s = true ->
   exists g groups,
     every_char alphanumeric g = true
     /\ forallb alphanumeric_word groups = true /\ s = g ++ dotted groups)
  /\ (pattern_run at_first s = true ->
      exists g groups,
        alphanumeric_word g = true
        /\ forallb alphanumeric_word groups = true /\ s = g ++ dotted groups).
Proof.
  induction s as [|c s [IHn IHf]].
  - split; [|discriminate]. intros _. now exists "", [].
  - split; cbn [pattern_run]; intros H.
    + destruct (alphanumeric c) eqn:Hc.
      * destruct (IHn H) as (g & groups & Hg & Hgs & ->).
        exists (String c g), groups. cbn. now rewrite Hc, Hg.
      * destruct (Ascii.eqb_spec c ".") as [->|]; [|discriminate].
        destruct (IHf H) as (g & groups & Hg & Hgs & ->).
        exists "", (g :: groups). cbn. now rewrite Hg, Hgs.
    + destruct (alphanumeric c) eqn:Hc; [|discriminate].
      destruct (IHn H) as (g & groups & Hg & Hgs & ->).
      exists (String c g), groups. unfold alphanumeric_word. cbn.
      now rewrite Hc, Hg.
Qed.

(** [/^(\.[a-z0-9]+)+$/i] accepts exactly the strings made of one or more
    groups, each a dot followed by one or more letters or digits. *)
Theorem extension_pattern_groups (s : string) :
  extension_pattern s = true
  <-> exists g groups,
        forallb alphanumeric_word (g :: groups) = true
        /\ s = dotted (g :: groups).
Proof.
  unfold extension_pattern. split.
  - destruct s as [|c s]; [discriminate|]. cbn [pattern_run].
    destruct (Ascii.eqb_spec c ".") as [->|]; [|discriminate]. intros H.
    destruct (proj2 (pattern_run_inv s) H) as (g & groups & Hg & Hgs & ->).
    exists g, groups. cbn. now rewrite Hg, Hgs.
  - intros (g & groups & H & ->).
    cbn in H. apply andb_true_iff in H as [Hg H].
    unfold alphanumeric_word in Hg. apply andb_true_iff in Hg as [Hn Hg].
    destruct g as [|c g]; [discriminate|]. cbn in Hg |- *.
    apply andb_true_iff in Hg as [Hc Hg]. rewrite Hc.
    apply pattern_run_word; [assumption|]. now apply pattern_run_dotted.
Qed.

Lemma extension_pattern_dot (x : string) :
  extension_pattern x = true -> first_is_not x "." = false.
Proof.
  destruct x as [|c x]; [discriminate|]. cbn.
  now destruct (Ascii.eqb c ".").
Qed.

Lemma check_extension_passes (keypath x : string) :
  check_extension keypath x = Normal tt <-> extension_pattern x = true.
Proof.
  unfold check_extension. split.
  - destruct (first_is_not x "."); [discriminate|].
    now destruct (extension_pattern x).
  - intros H. now rewrite (extension_pattern_dot x H), H.
Qed.

Lemma map_JString_inj (l l' : list string) :
  map (@JString Number) l = map JString l' -> l = l'.
Proof.
  revert l'. induction l as [|x l IH]; intros [|y l'] A;
    try discriminate; [reflexivity|].
  injection A as -> A. now rewrite (IH l' A).
Qed.

(** A validator that wants an array of strings and then runs a check on
    each of them. *)
Lemma each_string_accepts (check : string -> completion unit)
  (ok : string -> bool) (message : string) (option option' : JSValue) :
  (forall x, check x = Normal tt <-> ok x = true) ->
  match array_of_strings option with
  | None => Throw (Error message)
  | Some l =>
      match forEach check l with
      | Throw e => Throw e
      | Normal _ => Normal option
      end
  end = Normal option'
  <-> option' = option
      /\ exists l, option = JArray (map JString l) /\ forallb ok l = true.
Proof.
  intros C. destruct (array_of_strings option) as [l|] eqn:A.
  - apply array_of_strings_iff in A.
    pose proof (forEach_passes check ok l C) as F.
    destruct (forEach check l) as [[]|e].
    + split.
      * intros [= <-]. split; [reflexivity|]. exists l. tauto.
      * now intros [-> _].
    + split; [discriminate|]. intros [_ (l' & E & H)].
      rewrite E in A. injection A as A. apply map_JString_inj in A as ->.
      apply F in H. discriminate.
  - split; [discriminate|]. intros [_ (l & E & _)].
    apply array_of_strings_iff in E. congruence.
Qed.

(** [extensions.validate] accepts the arrays of strings that all match
    the pattern, the empty array among them, and nothing else; it returns
    the array it was given. *)
Theorem validate_extensions_accepts (option option' : JSValue)
  (keypath : string) :
  validate_extensions option keypath = Normal option'
  <-> option' = option
      /\ exists l, option = JArray (map JString l)
                   /\ forallb extension_pattern l = true.
Proof.
  apply each_string_accepts, check_extension_passes.
Qed.

(** Of an array of strings that do not all match, [extensions.validate]
    reports the first one that does not: that it does not start with a
    dot, or else that it is not alphanumeric.  The first message names the
    keypath, the second does not. *)
Theorem validate_extensions_first_offender (good : list string) (x : string)
  (rest : list string) (keypath : string) :
  forallb extension_pattern good = true ->
  extension_pattern x = false ->
  validate_extensions
    (JArray (map (@JString Number) (good ++ x :: rest))) keypath
  = Throw (Error (if first_is_not x "."
                  then "Each member of " ++ keypath
                       ++ " must start with '.' — saw '" ++ x ++ "'"
                  else "File extensions must be alphanumeric — saw '"
                       ++ x ++ "'")).
Proof.
  intros G X. unfold validate_extensions.
  rewrite (proj2 (array_of_strings_iff _ _) eq_refl).
  rewrite (forEach_stops _ extension_pattern good x rest
             (check_extension_passes keypath) G).
  unfold check_extension. rewrite X.
  now destruct (first_is_not x ".").
Qed.

(** ** [kit.prerender.pages] *)

Lemma check_page_passes (keypath x : string) :
  check_page keypath x = Normal tt <-> page_allowed x = true.
Proof.
  unfold check_page, page_allowed.
  destruct (x =? "*"), (first_is_not x "/"); cbn; split;
    (reflexivity || discriminate).
Qed.

(** [kit.prerender.pages.validate] accepts the arrays of strings each of
    which is ['*'] or starts with ['/'], and returns the array; of any
    other array of strings it reports the first member that is neither.
    The empty string is such a member. *)
Theorem validate_pages_spec (keypath : string) :
  (forall option option' : JSValue,
     validate_pages option keypath = Normal option'
     <-> option' = option
         /\ exists l, option = JArray (map JString l)
                      /\ forallb page_allowed l = true)
  /\ (forall good x rest,
        forallb page_allowed good = true -> page_allowed x = false ->
        validate_pages
          (JArray (map (@JString Number) (good ++ x :: rest))) keypath
        = Throw (Error ("Each member of " ++ keypath
                        ++ " must be either '*' or an absolute path"
                        ++ " beginning with '/' — saw '" ++ x ++ "'")))
  /\ page_allowed "" = false.
Proof.
  split; [|split; [|reflexivity]].
  - intros option option'. apply each_string_accepts, check_page_passes.
  - intros good x rest G X. unfold validate_pages.
    rewrite (proj2 (array_of_strings_iff _ _) eq_refl).
    rewrite (forEach_stops _ page_allowed good x rest
               (check_page_passes keypath) G).
    unfold check_page, page_allowed in *.
    apply orb_false_iff in X as [X1 X2]. apply negb_false_iff in X2.
    rewrite X1, X2. reflexivity.
Qed.

(** ** [kit.adapter] *)

(** [kit.adapter.validate] accepts the objects whose [adapt] is truthy,
    and returns them.  On [null], the default of the option, it throws the
    [TypeError] of reading a property of [null], on nothing else; every
    other value gets the message of the validator, with the hint about
    adapter names for arrays and strings only. *)
Theorem validate_adapter_spec (option : JSValue) (keypath : string) :
  (forall option',
     validate_adapter option keypath = Normal option'
     <-> option' = option
         /\ exists properties,
              option = JObject properties
              /\ value_truthy (adapt_of properties) = true)
  /\ (validate_adapter option keypath = Throw TypeError <-> option = JNull)
  /\ (forall e,
        validate_adapter option keypath = Throw e -> option <> JNull ->
        e = Error (adapter_message keypath
                     (isArray option || (typeof option =? "string")))).
Proof.
  assert (O : forall properties,
            validate_adapter (JObject properties) keypath
            = if value_truthy (adapt_of properties)
              then Normal (JObject properties)
              else Throw (Error (adapter_message keypath false))).
  { intros properties. unfold validate_adapter, adapter_message.
    cbn [typeof String.eqb Ascii.eqb Bool.eqb negb get_adapt isArray orb].
    fold (adapt_of properties). rewrite !append_assoc.
    now destruct (value_truthy (adapt_of properties)). }
  split; [|split].
  - intros option'. split.
    + destruct option as [| |b|n|s|items|properties|result|id];
        try discriminate.
      rewrite O. destruct (value_truthy (adapt_of properties)) eqn:T;
        [|discriminate].
      intros [= <-]. split; [reflexivity|]. now exists properties.
    + intros [-> (properties & -> & T)]. now rewrite O, T.
  - split; [|now intros ->].
    destruct option as [| |b|n|s|items|properties|result|id];
      try reflexivity; try discriminate.
    rewrite O. now destruct (value_truthy _).
  - intros e H Hn.
    destruct option as [| |b|n|s|items|properties|result|id];
      try (now elim Hn);
      try (injection H as <-; unfold adapter_message;
           cbn [typeof String.eqb Ascii.eqb Bool.eqb isArray orb];
           now rewrite !append_assoc).
    rewrite O in H.
    destruct (value_truthy (adapt_of properties)); [discriminate|].
    now injection H as <-.
Qed.

(** ** [kit.vite] *)

(** [kit.vite.validate] accepts what [typeof] calls an object or a
    function, [null] and arrays included.  What it returns is a function:
    a function is returned as it is, anything else is wrapped in a function
    that returns it; validating the result again changes nothing. *)
Theorem validate_vite_spec (option : JSValue) (keypath : string) :
  ((exists option', validate_vite option keypath = Normal option')
   <-> typeof option = "object" \/ typeof option = "function")
  /\ (forall option',
        validate_vite option keypath = Normal option' ->
        typeof option' = "function"
        /\ validate_vite option' keypath = Normal option'
        /\ (typeof option = "function" -> option' = option)
        /\ (typeof option = "object" -> option' = JThunk option))
  /\ validate_vite (@JNull Number) keypath = Normal (JThunk JNull).
Proof.
  split; [|split; [|reflexivity]].
  - destruct option as [| |b|n|s|items|properties|result|id];
      (split; [intros [option' H]; try discriminate H; auto
              | intros [H | H]; try discriminate H; eexists; reflexivity]).
  - intros option' H.
    destruct option as [| |b|n|s|items|properties|result|id];
      try discriminate H; injection H as <-;
      (split; [reflexivity|]); (split; [reflexivity|]);
      split; intros E; (reflexivity || discriminate E).
Qed.

(** ** The constructors of leaves *)

(** [expect_string]: the validator accepts strings, the empty string only
    if [allow_empty]; it reports a value that is not a string before it
    looks at [allow_empty]. *)
Theorem expect_string_spec (default : JSValue) (allow_empty : bool)
  (option : JSValue) (keypath : string) :
  (forall option',
     validate_of (expect_string default allow_empty) option keypath
     = Normal option'
     <-> option' = option
         /\ exists s, option = JString s
                      /\ (allow_empty = true \/ s <> ""))
  /\ (typeof option <> "string" ->
      validate_of (expect_string default allow_empty) option keypath
      = Throw (Error (keypath ++ " should be a string, if specified")))
  /\ (allow_empty = false ->
      validate_of (expect_string default allow_empty) (JString "") keypath
      = Throw (Error (keypath ++ " cannot be empty"))).
Proof.
  split; [|split].
  - intros option'.
    destruct option as [| |b|n|s|items|properties|result|id];
      try (split; [discriminate | intros [_ (s' & E & _)]; discriminate E]).
    cbn. destruct allow_empty; cbn.
    + split; [intros [= <-]; split; [reflexivity|]; exists s; auto
             | now intros [-> _]].
    + destruct s as [|c s].
      * split; [discriminate|]. intros [_ (s' & [= <-] & [H | H])];
          [discriminate | now elim H].
      * split; [intros [= <-]; split; [reflexivity|]; eexists; split;
                  [reflexivity | right; discriminate]
               | now intros [-> _]].
  - destruct option as [| |b|n|s|items|properties|result|id];
      try reflexivity.
    intros H. now elim H.
  - now intros ->.
Qed.

Lemma array_includes_In (l : list string) (s : string) :
  array_includes l s = true <-> In s l.
Proof.
  unfold array_includes. rewrite existsb_exists. split.
  - intros (t & Hin & E). apply String.eqb_eq in E. now subst.
  - intros Hin. exists s. split; [assumption | apply String.eqb_refl].
Qed.

(** [expect_enum]: the validator accepts the strings listed in [options]
    and nothing else, and returns them; when [def] is left out, the default
    is the first of the options, which the validator accepts. *)
Theorem expect_enum_spec (options : list string) (def option : JSValue)
  (keypath : string) :
  (forall option',
     validate_of (expect_enum options def) option keypath = Normal option'
     <-> option' = option /\ exists s, option = JString s /\ In s options)
  /\ (forall o rest,
        options = o :: rest ->
        default_of (@expect_enum Number options JUndefined) = JString o
        /\ validate_of (@expect_enum Number options JUndefined)
             (default_of (@expect_enum Number options JUndefined)) keypath
           = Normal (JString o)).
Proof.
  split.
  - intros option'. cbn [validate_of expect_enum].
    destruct option as [| |b|n|s|items|properties|result|id];
      try (split; [discriminate | intros [_ (s' & E & _)]; discriminate E]).
    cbn [enum_includes].
    destruct (array_includes options s) eqn:I; cbn [negb].
    + apply array_includes_In in I.
      split; [intros [= <-]; split; [reflexivity|]; now exists s
             | now intros [-> _]].
    + split; [discriminate|]. intros [_ (s' & [= <-] & Hin)].
      apply array_includes_In in Hin. congruence.
  - intros o rest ->. split; [reflexivity|].
    cbn [validate_of expect_enum default_of enum_includes array_includes
         existsb].
    now rewrite String.eqb_refl.
Qed.

(** The message of [expect_enum] for three options or more lists them
    all, each in double quotes, the last one after [or]. *)
Theorem expect_enum_message (first : list string) (last keypath : string) :
  (2 <= List.length first)%nat ->
  enum_message (first ++ [last])%list keypath
  = keypath ++ " should be one of "
    ++ String.concat ", " (map quoted first) ++ " or " ++ quoted last.
Proof.
  intros H. unfold enum_message, nth_or_undefined.
  rewrite length_app, removelast_last. cbn [List.length].
  replace (List.length first + 1 - 1)%nat with (List.length first) by lia.
  rewrite nth_middle.
  destruct (Nat.ltb_spec 2 (List.length first + 1)); [reflexivity | lia].
Qed.

(** The defaults of the constructors are not validated when the table is
    built.  The defaults of [expect_boolean] and [expect_array_of_strings]
    pass their own validator by construction; a string given to
    [expect_string] passes unless it is empty and [allow_empty] is off;
    [null] given to [expect_string] does not pass. *)
Theorem constructor_defaults (keypath : string) :
  (forall boolean,
     validate_of (@expect_boolean Number boolean)
       (default_of (@expect_boolean Number boolean)) keypath
     = Normal (JBoolean boolean))
  /\ (forall array,
        validate_of (@expect_array_of_strings Number array)
          (default_of (@expect_array_of_strings Number array)) keypath
        = Normal (JArray (map JString array)))
  /\ (forall s allow_empty,
        validate_of (@expect_string Number (JString s) allow_empty)
          (default_of (@expect_string Number (JString s) allow_empty)) keypath
        = Normal (JString s)
        <-> allow_empty = true \/ s <> "")
  /\ (forall allow_empty,
        validate_of (@expect_string Number JNull allow_empty)
          (default_of (@expect_string Number JNull allow_empty)) keypath
        = Throw (Error (keypath ++ " should be a string, if specified"))).
Proof.
  split; [reflexivity|]. split; [|split; [|reflexivity]].
  - intros array. cbn [validate_of default_of expect_array_of_strings].
    cbn [array_of_strings]. now rewrite strings_of_map.
  - intros s allow_empty. cbn. destruct allow_empty; cbn.
    + split; auto.
    + destruct s as [|c s].
      * split; [discriminate | intros [H | H]; [discriminate | now elim H]].
      * split; [right; discriminate | reflexivity].
Qed.

(** ** The table *)

(** [kit.trailingSlash] is an enumeration whose accepted values are the
    names of the three policies of the router; the default names [never].
    Every policy has a name. *)
Theorem trailingSlash_option (option : JSValue) (keypath : string) :
  (exists d,
     definition_at (branch options) ["kit"; "trailingSlash"] = Some d
     /\ TrailingSlash_of (default_of d) = Some never
     /\ validate_of d option keypath
        = match TrailingSlash_of option with
          | Some _ => Normal option
          | None =>
              Throw (Error (keypath ++ " should be one of "
                            ++ quoted "never" ++ ", " ++ quoted "always"
                            ++ " or " ++ quoted "ignore"))
          end)
  /\ forall policy, exists s, TrailingSlash_of (@JString Number s) = Some policy.
Proof.
  split.
  - exists (expect_enum ["never"; "always"; "ignore"] JUndefined).
    split; [reflexivity|]. split; [reflexivity|].
    destruct option as [| |b|n|s|items|properties|result|id];
      try reflexivity.
    cbn [validate_of expect_enum enum_includes array_includes existsb
         TrailingSlash_of].
    rewrite (String.eqb_sym "never"), (String.eqb_sym "always"),
      (String.eqb_sym "ignore").
    destruct (s =? "never"); [reflexivity|].
    destruct (s =? "always"); [reflexivity|].
    destruct (s =? "ignore"); reflexivity.
  - intros [| |]; [now exists "never" | now exists "always"
                   | now exists "ignore"].
Qed.

Lemma returns_noop (option : JSValue) keypath option' :
  noop option keypath = Normal option' -> option' = JUndefined.
Proof. now intros [= <-]. Qed.

Lemma returns_vite (option : JSValue) keypath option' :
  validate_vite option keypath = Normal option' ->
  option' = option \/ option' = JThunk option.
Proof.
  destruct option as [| |b|n|s|items|properties|result|id];
    try discriminate; intros [= <-]; auto.
Qed.

Lemma returns_each_string (check : string -> completion unit)
  (message : string) (option option' : JSValue) :
  match array_of_strings option with
  | None => Throw (Error message)
  | Some l =>
      match forEach check l with
      | Throw e => Throw e
      | Normal _ => Normal option
      end
  end = Normal option' -> option' = option.
Proof.
  destruct (array_of_strings option) as [l|]; [|discriminate].
  destruct (forEach check l); [|discriminate]. now intros [= <-].
Qed.

Lemma returns_adapter (option : JSValue) keypath option' :
  validate_adapter option keypath = Normal option' -> option' = option.
Proof.
  unfold validate_adapter.
  destruct (if negb (typeof option =? "object") then Normal true
            else match get_adapt option with
                 | Throw e => Throw e
                 | Normal adapt => Normal (negb (value_truthy adapt))
                 end) as [[|]|e]; [discriminate | | discriminate].
  now intros [= <-].
Qed.

Lemma returns_expect_string default allow_empty (option : JSValue) keypath
  option' :
  validate_of (expect_string default allow_empty) option keypath
  = Normal option' -> option' = option.
Proof.
  cbn [validate_of expect_string].
  destruct (assert_is_string option keypath); [|discriminate].
  destruct (negb allow_empty && _); [discriminate|]. now intros [= <-].
Qed.

Lemma returns_expect_boolean boolean (option : JSValue) keypath option' :
  validate_of (expect_boolean boolean) option keypath = Normal option' ->
  option' = option.
Proof.
  cbn [validate_of expect_boolean].
  destruct (negb _); [discriminate|]. now intros [= <-].
Qed.

Lemma returns_expect_array array (option : JSValue) keypath option' :
  validate_of (expect_array_of_strings array) option keypath
  = Normal option' -> option' = option.
Proof.
  cbn [validate_of expect_array_of_strings].
  destruct (array_of_strings option); [|discriminate]. now intros [= <-].
Qed.

Lemma returns_expect_enum options def (option : JSValue) keypath option' :
  validate_of (expect_enum options def) option keypath = Normal option' ->
  option' = option.
Proof.
  cbn [validate_of expect_enum].
  destruct (negb _); [discriminate|]. now intros [= <-].
Qed.

(** The leaves of the table, spelled out. *)
Ltac table H :=
  unfold options in H;
  cbn [leaves app expect_string expect_boolean expect_array_of_strings
       expect_enum] in H.

(** What the validators of the table return.  All of them hand back the
    option they were given, with two exceptions: the validator of
    [compilerOptions] and [preprocess] returns [undefined] whatever it is
    given, and the validator of [kit.vite] may return its argument wrapped
    in a function. *)
Theorem validators_return_option (path : list string) (default : JSValue)
  (validate : JSValue -> string -> completion JSValue)
  (option option' : JSValue) (keypath : string) :
  In (path, default, validate) (leaves [] (branch options)) ->
  validate option keypath = Normal option' ->
  option' = option
  \/ (option' = JUndefined
      /\ (path = ["compilerOptions"] \/ path = ["preprocess"]))
  \/ (option' = JThunk option /\ path = ["kit"; "vite"]).
Proof.
  intros H V. table H.
  repeat (destruct H as [H | H];
          [injection H as <- <- <-;
           first [ apply returns_noop in V; right; left; now auto
                 | apply returns_vite in V as [V | V]; now auto
                 | left; exact (returns_each_string _ _ _ _ V)
                 | left; exact (returns_adapter _ _ _ V)
                 | left; exact (returns_expect_string JNull true _ _ _ V)
                 | left; exact (returns_expect_string JNull false _ _ _ V)
                 | left; exact (returns_expect_boolean true _ _ _ V)
                 | left; exact (returns_expect_array [] _ _ _ V)
                 | left;
                   exact (returns_expect_enum ["never"; "always"; "ignore"]
                            JUndefined _ _ _ V) ]
          |]).
  destruct H.
Qed.

Ltac settle :=
  let V := fresh "V" in
  intros V;
  match type of V with
  | ex _ => destruct V as [? V]; discriminate V
  | _ => first [ reflexivity
               | eexists; reflexivity
               | discriminate V
               | exfalso; apply V; auto 10
               | solve [auto 10]
               | intuition discriminate ]
  end.

(** The defaults of the table and their own validators.  The validator
    returns the default for every leaf but six: the [null] defaults of
    [kit.adapter], [kit.host], [kit.hostHeader] and [kit.target] are
    refused, and those of [compilerOptions] and [preprocess] come back as
    [undefined]. *)
Theorem defaults_and_validators (path : list string) (default : JSValue)
  (validate : JSValue -> string -> completion JSValue) (keypath : string) :
  In (path, default, validate) (leaves [] (branch options)) ->
  (validate default keypath = Normal default
   <-> ~ In path [ ["compilerOptions"]; ["kit"; "adapter"]; ["kit"; "host"];
                   ["kit"; "hostHeader"]; ["kit"; "target"];
                   ["preprocess"] ])
  /\ (In path [ ["kit"; "adapter"]; ["kit"; "host"]; ["kit"; "hostHeader"];
                ["kit"; "target"] ]
      <-> exists e, validate default keypath = Throw e).
Proof.
  intros H. table H.
  repeat (destruct H as [H | H];
          [injection H as <- <- <-; cbn; unfold noop; split; split; settle|]).
  destruct H.
Qed.

End MoreOptions.

(** * Runs of the further properties on the samples *)

(** [parse] on the page [/app/docs/?x=1] of the application under [/app]. *)
Lemma path_never_empty_witness :
  info_path Sample.docs_info <> ""
  /\ normalize_trailing_slash (trailing_slash Sample.app_router)
       (info_path Sample.docs_info) <> "".
Proof.
  assert (H : parse Sample.app_router Sample.docs_slash Sample.docs_slash
              = Normal (Some Sample.docs_info)) by run.
  destruct (path_never_empty Sample.app_router Sample.docs_slash
              Sample.docs_slash Sample.docs_info H) as (A & B & _).
  exact (conj A B).
Defined.

Lemma parse_plain_rest_witness :
  owns Sample.app_router Sample.docs_slash Sample.docs_slash = true
  /\ exists info,
       parse Sample.app_router Sample.docs_slash Sample.docs_slash
       = Normal (Some info)
       /\ info_path info = "/docs/".
Proof.
  assert (Ho : origin Sample.docs_slash = origin Sample.docs_slash) by run.
  assert (Hp : pathname Sample.docs_slash
               = base Sample.app_router ++ "/docs/") by run.
  assert (Hplain : includes "/docs/" "%" = false) by run.
  exact (parse_plain_rest Sample.app_router Sample.docs_slash
           Sample.docs_slash "/docs/" Ho Hp Hplain).
Defined.

(** A click on the link to [/contact] from the page [/page]. *)
Lemma click_adds_one_entry_witness :
  fst (on_click Sample.root_router
         (Sample.on_node (Sample.inside Sample.contact_link))
         (Sample.started Sample.root_router Sample.a_page)) = Normal tt
  /\ history_length
       (snd (on_click Sample.root_router
               (Sample.on_node (Sample.inside Sample.contact_link))
               (Sample.started Sample.root_router Sample.a_page)))
     = List.length
         (history_back (Sample.started Sample.root_router Sample.a_page)) + 2.
Proof.
  pose (r := Sample.root_router).
  pose (b := Sample.started r Sample.a_page).
  pose (ev := Sample.on_node (Sample.inside Sample.contact_link)).
  assert (He : enabled r = true) by run.
  assert (Ha : accepts ev = true) by run.
  assert (Hf : find_anchor (event_target ev) = Some Sample.contact_link)
    by run.
  assert (Hh : anchor_href Sample.contact_link
               = Some "http://localhost/contact") by run.
  assert (Hne : "http://localhost/contact" <> href (location b))
    by (vm_compute; discriminate).
  assert (Hd : hasAttribute Sample.contact_link "download" = false) by run.
  assert (Hr : rel_external Sample.contact_link = false) by run.
  assert (Ht : anchor_target Sample.contact_link = Normal (Str "")) by run.
  assert (Htv : IDL_truthy (Str "") = false) by run.
  assert (Hu : new_URL "http://localhost/contact" None = Some Sample.contact)
    by run.
  assert (Ho : owns r (location b) Sample.contact = true) by run.
  assert (Hround : new_URL (href Sample.contact) (Some (baseURI b))
                   = Some Sample.contact) by run.
  destruct (click_adds_one_entry r ev Sample.contact_link
              "http://localhost/contact" Sample.contact (Str "") b
              He Ha Hf Hh Hne Hd Hr Ht Htv Hu Ho Hround)
    as (A & _ & _ & B & _).
  exact (conj A B).
Defined.

(** The extensions [.svelte] and [md]: the second one is reported. *)
Lemma validate_extensions_first_offender_witness :
  validate_extensions
    (JArray (map (@JString Z) ([".svelte"] ++ "md" :: [])%list)) "extensions"
  = Throw (Error (if first_is_not "md" "."
                  then "Each member of " ++ "extensions"
                       ++ " must start with '.' — saw '" ++ "md" ++ "'"
                  else "File extensions must be alphanumeric — saw '"
                       ++ "md" ++ "'")).
Proof.
  assert (G : forallb extension_pattern [".svelte"] = true) by reflexivity.
  assert (X : extension_pattern "md" = false) by reflexivity.
  exact (validate_extensions_first_offender (Number := Z) [".svelte"] "md" []
           "extensions" G X).
Defined.

(** The message of [kit.trailingSlash]. *)
Lemma expect_enum_message_witness :
  enum_message (["never"; "always"] ++ ["ignore"])%list "kit.trailingSlash"
  = "kit.trailingSlash" ++ " should be one of "
    ++ String.concat ", " (map quoted ["never"; "always"])
    ++ " or " ++ quoted "ignore".
Proof.
  assert (H : (2 <= List.length ["never"; "always"])%nat) by (simpl; lia).
  exact (expect_enum_message ["never"; "always"] "ignore"
           "kit.trailingSlash" H).
Defined.

(** [kit.amp] set to [true]. *)
Lemma validators_return_option_witness :
  @JBoolean Z true = JBoolean true
  \/ (@JBoolean Z true = JUndefined
      /\ (["kit"; "amp"] = ["compilerOptions"]
          \/ ["kit"; "amp"] = ["preprocess"]))
  \/ (@JBoolean Z true = JThunk (JBoolean true)
      /\ ["kit"; "amp"] = ["kit"; "vite"]).
Proof.
  assert (H : In (["kit"; "amp"], @JBoolean Z false,
                  validate_of (expect_boolean false))
                (leaves [] (branch options))).
  { do 3 right. left. reflexivity. }
  assert (V : validate_of (@expect_boolean Z false) (JBoolean true) "kit.amp"
              = Normal (JBoolean true)) by reflexivity.
  exact (validators_return_option ["kit"; "amp"] (JBoolean false)
           (validate_of (expect_boolean false)) (JBoolean true)
           (JBoolean true) "kit.amp" H V).
Defined.

(** The default of [kit.host]. *)
Lemma defaults_and_validators_witness :
  exists e : JSError,
    validate_of (@expect_string Z JNull true) JNull "kit.host" = Throw e.
Proof.
  assert (H : In (["kit"; "host"], @JNull Z,
                  validate_of (expect_string JNull true))
                (leaves [] (branch options))).
  { do 13 right. left. reflexivity. }
  apply (proj2 (defaults_and_validators ["kit"; "host"] JNull
                  (validate_of (expect_string JNull true)) "kit.host" H)).
  do 1 right. left. reflexivity.
Defined.
